(** * Club management: the credential and OTP-verification routes

    A shallow embedding of the server's authentication router (the routes
    POST /signup, /verify-otp, /resend-otp, /login, /forgot-password and
    /reset-password), of the Club model (models/Club.js) and of the e-mail
    service's OTP generator (utils/emailService.js), followed by the
    properties of the OTP state machine checked against them.

    The collections are lists in insertion order; a route is a function
    from the store to an answer and a new store; what a route takes from
    outside (the clock, [Math.random()], the bcrypt salt, the fate of the
    e-mail) is an explicit argument. *)

From Stdlib Require Import ZArith List String Ascii Bool Lia Arith.
Import ListNotations.

Local Open Scope Z_scope.

(* ================================================================== *)
(** * JavaScript numbers, as far as [generateOTP] needs them *)
(* ================================================================== *)

(** A non-negative finite IEEE-754 binary64 value is an integer multiple of
    2^-1074 whose significand fits in 53 bits.  Such a value is represented
    by its numerator over 2^1074; the operations below are the exact result
    followed by round-to-nearest, ties-to-even.  All values [generateOTP]
    handles stay below 2^21, far from overflow. *)
Module Float64.

Definition t := Z.

Definition emin : Z := 1074.
Definition unit : Z := 2 ^ emin.

(** Exponent of the unit in the last place of the binade of [n]. *)
Definition ulp_exp (n : Z) : Z := Z.max 0 (Z.log2 n - 52).

(** Round-to-nearest, ties-to-even, of a non-negative numerator. *)
Definition round (n : Z) : t :=
  let s := ulp_exp n in
  let q := n / 2 ^ s in
  let r := n mod 2 ^ s in
  if 2 * r <? 2 ^ s then q * 2 ^ s
  else if 2 ^ s <? 2 * r then (q + 1) * 2 ^ s
  else if Z.even q then q * 2 ^ s else (q + 1) * 2 ^ s.

(** The numerators that are binary64 values. *)
Definition representable (n : Z) : Prop := 0 <= n /\ round n = n.

(** An integer literal of the program text. *)
Definition of_int (k : Z) : t := round (k * unit).

Definition add (a b : t) : t := round (a + b).

(** [a * k] for an integer-valued right operand [k] (here the literal
    900000): the exact product of the numerator by the integer is again a
    numerator over 2^1074, which is then rounded. *)
Definition mul_int (a : t) (k : Z) : t := round (a * k).

(** [Math.floor] of a non-negative value, as an integer. *)
Definition floor (a : t) : Z := a / unit.

End Float64.

(** [Number.prototype.toString] of a non-negative integer value: its decimal
    digits, most significant first, no padding. *)
Definition digitChar (d : Z) : ascii := ascii_of_nat (48 + Z.to_nat d).

Fixpoint digitsAcc (fuel : nat) (n : Z) (acc : string) : string :=
  match fuel with
  | O => acc
  | S fuel' =>
      let acc' := String (digitChar (n mod 10)) acc in
      if n / 10 =? 0 then acc' else digitsAcc fuel' (n / 10) acc'
  end.

Definition toString (n : Z) : string :=
  digitsAcc (S (Z.to_nat (Z.log2 n))) n EmptyString.

(** utils/emailService.js
<<
    export const generateOTP = () => {
      return Math.floor(100000 + Math.random() * 900000).toString();
    };
>>
    [random] is the value [Math.random()] returned. *)
Definition generateOTP (random : Float64.t) : string :=
  toString
    (Float64.floor
       (Float64.add (Float64.of_int 100000)
          (Float64.mul_int random 900000))).

Arguments generateOTP : simpl never.

(* ================================================================== *)
(** * Library functions the routes call *)
(* ================================================================== *)

(** The routes rely on JavaScript built-ins ([String.prototype.trim],
    [toLowerCase]), on validator.js ([isEmail]) and on bcryptjs.  None of
    them is code of the server; the embedding is parametric in them. *)
Class Platform := {
  trim : string -> string;
  toLowerCase : string -> string;
  isEmail : string -> bool;
  (** [bcrypt.hash(plaintext, salt)] *)
  bcrypt_hash : string -> string -> string;
  (** [bcrypt.compare(candidate, hash)] *)
  bcrypt_compare : string -> string -> bool;
  (** Modelled from the spec: models/OTP.js is not among the sources; an
      OTP document is "keyed by (email)".  [otp_email] is whatever setter
      that schema applies to the [email] path, when a document is created
      and when a filter is cast (the identity if it declares none). *)
  otp_email : string -> string
}.

(** What one request takes from its surroundings. *)
Record Env := {
  now : Z;                (* Date.now(), milliseconds *)
  random : Float64.t;     (* the value Math.random() returns *)
  salt : string;          (* the value bcrypt.genSalt(10) returns *)
  mail_ok : bool          (* whether the mail transport accepts the message *)
}.

(* ================================================================== *)
(** * Documents *)
(* ================================================================== *)

Record Member := {
  member_name : string;
  member_role : string;
  member_email : string
}.

Record Event := {
  event_name : string;
  event_description : string;
  event_date : Z;
  event_venue : string;
  event_googleFormLink : string;
  event_createdAt : Z
}.

(** models/Club.js, [clubSchema]. *)
Record ClubDoc := {
  _id : nat;
  name : string;
  description : string;
  email : string;
  password : string;
  verified : bool;
  members : list Member;
  events : list Event;
  createdAt : Z
}.

(** Modelled from the spec: models/OTP.js is not among the sources.  An OTP
    record holds the email it was issued for, the code, and the instant it
    was issued at. *)
Record OTPDoc := {
  otp_for : string;
  otp_code : string;
  issuedAt : Z
}.

(** The two collections, each in natural (insertion) order, and the next
    fresh document id. *)
Record Store := {
  clubs : list ClubDoc;
  otps : list OTPDoc;
  next_id : nat
}.

Definition empty_store : Store := {| clubs := []; otps := []; next_id := 0 |}.

(* ================================================================== *)
(** * Responses *)
(* ================================================================== *)

(** The payload [jwt.sign({ clubId }, secret, { expiresIn: '7d' })] signs. *)
Record Token := {
  clubId : nat;
  iat : Z;      (* seconds *)
  exp : Z       (* seconds *)
}.

Definition seven_days : Z := 7 * 24 * 60 * 60.

Definition jwt_sign (id : nat) (now_ms : Z) : Token :=
  {| clubId := id; iat := now_ms / 1000; exp := now_ms / 1000 + seven_days |}.

Arguments jwt_sign : simpl never.

Record ClubView := {
  view_id : nat;
  view_name : string;
  view_email : string;
  view_description : string
}.

Definition view_of (c : ClubDoc) : ClubView :=
  {| view_id := _id c; view_name := name c; view_email := email c;
     view_description := description c |}.

Inductive Body :=
| Errors (errors : list string)                 (* { success: false, errors } *)
| Message (success : bool) (message : string)   (* { success, message } *)
| Sent (message : string) (to : string)         (* { success: true, message, email } *)
| Authenticated (message : string) (token : Token) (club : ClubView)
| Failure (message : string) (error : string).  (* { success: false, message, error } *)

Record Response := {
  status : Z;
  body : Body
}.

(** [req.body]; a field the client left out reads as the empty string, which
    is what the validators make of it. *)
Record Request := {
  req_name : string;
  req_description : string;
  req_email : string;
  req_password : string;
  req_otp : string;
  req_newPassword : string
}.

(* ================================================================== *)
(** * Route bodies: state, early [return res...], exceptions *)
(* ================================================================== *)

(** A step of a route body either goes on with a value, or has answered the
    request ([return res.status(..).json(..)]), or has thrown.  Writes to
    the collections made before the answer or the exception stay. *)
Inductive Outcome (A : Type) :=
| Value (a : A)
| Replied (r : Response)
| Thrown (error : string).

Arguments Value {A} a.
Arguments Replied {A} r.
Arguments Thrown {A} error.

Definition Action (A : Type) : Type := Store -> Outcome A * Store.

Definition ret {A} (a : A) : Action A := fun s => (Value a, s).

Definition bind {A B} (m : Action A) (k : A -> Action B) : Action B :=
  fun s =>
    match m s with
    | (Value a, s') => k a s'
    | (Replied r, s') => (Replied r, s')
    | (Thrown e, s') => (Thrown e, s')
    end.

Definition reply {A} (code : Z) (b : Body) : Action A :=
  fun s => (Replied {| status := code; body := b |}, s).

Definition throw {A} (error : string) : Action A :=
  fun s => (Thrown error, s).

Declare Scope action_scope.
Delimit Scope action_scope with action.
Notation "x <- m ;; k" := (bind m (fun x => k))
  (at level 61, m at next level, right associativity) : action_scope.
Notation "m ;; k" := (bind m (fun _ => k))
  (at level 61, right associativity) : action_scope.

(** [try { ... } catch (error) { res.status(500).json({ success: false,
    message, error: error.message }) }] around a route body. *)
Definition route (message : string) (a : Action Response) (s : Store)
  : Response * Store :=
  match a s with
  | (Value r, s') => (r, s')
  | (Replied r, s') => (r, s')
  | (Thrown e, s') => ({| status := 500; body := Failure message e |}, s')
  end.

(* ================================================================== *)
(** * Lists as collections *)
(* ================================================================== *)

(** [deleteOne]: the first document the filter matches goes. *)
Fixpoint remove_first {A} (p : A -> bool) (l : list A) : list A :=
  match l with
  | [] => []
  | x :: l' => if p x then l' else x :: remove_first p l'
  end.

(** [deleteMany]: every document the filter matches goes. *)
Definition remove_all {A} (p : A -> bool) (l : list A) : list A :=
  filter (fun x => negb (p x)) l.

(* ================================================================== *)
(** * The Club model (models/Club.js) *)
(* ================================================================== *)

(** A Mongoose document in a route's hands: the fields, whether it has never
    been saved, and whether [password] is among its modified paths. *)
Record Document := {
  doc : ClubDoc;
  isNew : bool;
  isModified_password : bool
}.

Definition set_password (c : ClubDoc) (p : string) : ClubDoc :=
  {| _id := _id c; name := name c; description := description c;
     email := email c; password := p; verified := verified c;
     members := members c; events := events c; createdAt := createdAt c |}.

Definition set_verified (c : ClubDoc) (v : bool) : ClubDoc :=
  {| _id := _id c; name := name c; description := description c;
     email := email c; password := password c; verified := v;
     members := members c; events := events c; createdAt := createdAt c |}.

(** [club.password = p]: the path is marked modified when the value changes. *)
Definition assign_password (d : Document) (p : string) : Document :=
  {| doc := set_password (doc d) p;
     isNew := isNew d;
     isModified_password :=
       isModified_password d || negb (String.eqb (password (doc d)) p) |}.

(** [club.verified = v]. *)
Definition assign_verified (d : Document) (v : bool) : Document :=
  {| doc := set_verified (doc d) v;
     isNew := isNew d;
     isModified_password := isModified_password d |}.

(** The filters the routes pass to [Club.findOne]. *)
Inductive ClubFilter :=
| EmailOrName (e n : string)            (* { $or: [{ email }, { name }] } *)
| Email (e : string)                    (* { email } *)
| EmailVerified (e : string) (v : bool). (* { email, verified: v } *)

Module Club.
Section Model.
Context {platform : Platform}.

(** The schema's setters, applied when a document is built and when a
    filter is cast: [name] is trimmed; [email] is lowercased, then trimmed
    (Mongoose runs the setters of a path last declared first). *)
Definition cast_name (n : string) : string := trim n.
Definition cast_email (e : string) : string := trim (toLowerCase e).

Definition matches (f : ClubFilter) (c : ClubDoc) : bool :=
  match f with
  | EmailOrName e n =>
      String.eqb (email c) (cast_email e) || String.eqb (name c) (cast_name n)
  | Email e => String.eqb (email c) (cast_email e)
  | EmailVerified e v =>
      String.eqb (email c) (cast_email e) && Bool.eqb (verified c) v
  end.

Definition loaded (c : ClubDoc) : Document :=
  {| doc := c; isNew := false; isModified_password := false |}.

(** [Club.findOne(filter)]: the first match in natural order. *)
Definition findOne (f : ClubFilter) : Action (option Document) :=
  fun s => (Value (option_map loaded (find (matches f) (clubs s))), s).

(** [Club.findById(id)]. *)
Definition findById (id : nat) : Action (option Document) :=
  fun s =>
    (Value (option_map loaded (find (fun c => Nat.eqb (_id c) id) (clubs s))),
     s).

(** [Club.findByIdAndDelete(id)]. *)
Definition findByIdAndDelete (id : nat) : Action unit :=
  fun s =>
    (Value tt,
     {| clubs := remove_first (fun c => Nat.eqb (_id c) id) (clubs s);
        otps := otps s;
        next_id := next_id s |}).

(** [new Club({ name, description, email, password, verified: false })]:
    a fresh id, the setters applied, the defaults filled in. *)
Definition new (env : Env) (n d e p : string) : Action Document :=
  fun s =>
    (Value
       {| doc := {| _id := next_id s;
                    name := cast_name n;
                    description := d;
                    email := cast_email e;
                    password := p;
                    verified := false;
                    members := [];
                    events := [];
                    createdAt := now env |};
          isNew := true;
          isModified_password := true |},
     {| clubs := clubs s; otps := otps s; next_id := S (next_id s) |}).

(** The [pre('save')] hook: a modified password is replaced by its hash
    under a fresh salt; otherwise the document passes unchanged. *)
Definition pre_save (env : Env) (d : Document) : ClubDoc :=
  if negb (isModified_password d) then doc d
  else set_password (doc d) (bcrypt_hash (password (doc d)) (salt env)).

(** The unique indexes on [name] and [email]. *)
Definition duplicate_key (c : ClubDoc) (l : list ClubDoc) : bool :=
  existsb (fun c' => String.eqb (email c') (email c)
                     || String.eqb (name c') (name c)) l.

Definition replace (c : ClubDoc) (l : list ClubDoc) : list ClubDoc :=
  map (fun c' => if Nat.eqb (_id c') (_id c) then c else c') l.

(** [club.save()]: the hook runs; a new document is inserted at the end
    of the collection unless a unique index rejects it; a loaded one is
    written back in place.  The schema's own validators ([required],
    [minlength: 6]) ask no more of a document than the routes' validators
    have already asked of the request it is built from, and are left out. *)
Definition save (env : Env) (d : Document) : Action unit :=
  fun s =>
    let c := pre_save env d in
    if isNew d then
      if duplicate_key c (clubs s)
      then (Thrown "E11000 duplicate key error collection", s)
      else (Value tt,
            {| clubs := clubs s ++ [c]; otps := otps s;
               next_id := next_id s |})
    else (Value tt,
          {| clubs := replace c (clubs s); otps := otps s;
             next_id := next_id s |}).

(** [club.comparePassword(candidate)]. *)
Definition comparePassword (d : Document) (candidate : string) : bool :=
  bcrypt_compare candidate (password (doc d)).

End Model.
End Club.

(* ================================================================== *)
(** * The OTP model *)
(* ================================================================== *)

Module OTP.
Section Model.
Context {platform : Platform}.

(** The filter [{ email, otp }]. *)
Definition matches (e o : string) (r : OTPDoc) : bool :=
  String.eqb (otp_for r) (otp_email e) && String.eqb (otp_code r) o.

(** The filter [{ email }]. *)
Definition issued_for (e : string) (r : OTPDoc) : bool :=
  String.eqb (otp_for r) (otp_email e).

(** [OTP.findOne({ email, otp })]. *)
Definition findOne (e o : string) : Action (option OTPDoc) :=
  fun s => (Value (find (matches e o) (otps s)), s).

(** [OTP.create({ email, otp })]. *)
Definition create (env : Env) (e o : string) : Action unit :=
  fun s =>
    (Value tt,
     {| clubs := clubs s;
        otps := otps s ++ [{| otp_for := otp_email e; otp_code := o;
                              issuedAt := now env |}];
        next_id := next_id s |}).

(** [OTP.deleteOne({ email, otp })]. *)
Definition deleteOne (e o : string) : Action unit :=
  fun s =>
    (Value tt,
     {| clubs := clubs s; otps := remove_first (matches e o) (otps s);
        next_id := next_id s |}).

(** [OTP.deleteMany({ email })]. *)
Definition deleteMany (e : string) : Action unit :=
  fun s =>
    (Value tt,
     {| clubs := clubs s; otps := remove_all (issued_for e) (otps s);
        next_id := next_id s |}).

End Model.
End OTP.

(* ================================================================== *)
(** * The authentication routes *)
(* ================================================================== *)

Section Routes.
Context {platform : Platform}.

Local Open Scope string_scope.
Local Open Scope action_scope.

(** express-validator: [notEmpty()], [isLength({ min })],
    [isLength({ min, max })]. *)
Definition notEmpty (s : string) : bool := negb (String.eqb s "").
Definition isLength_min (lo : nat) (s : string) : bool :=
  (lo <=? String.length s)%nat.
Definition isLength_min_max (lo hi : nat) (s : string) : bool :=
  (lo <=? String.length s)%nat && (String.length s <=? hi)%nat.

(** One validation chain: the message is recorded when the check fails. *)
Definition check (ok : bool) (message : string) : list string :=
  if ok then [] else [message].

Definition isEmpty (errors : list string) : bool :=
  match errors with [] => true | _ => false end.

(** utils/emailService.js, [sendOTPEmail]: the transport's failure is
    rethrown as [new Error('Failed to send email')]. *)
Definition sendOTPEmail (env : Env) (email otp : string) : Action unit :=
  if mail_ok env then ret tt else throw "Failed to send email".

(** [POST /signup] *)
Definition signup_errors (req : Request) : list string :=
  check (notEmpty (trim (req_name req))) "Club name is required"
  ++ check (notEmpty (trim (req_description req))) "Description is required"
  ++ check (isEmail (req_email req)) "Valid email is required"
  ++ check (isLength_min 6 (req_password req))
       "Password must be at least 6 characters".

Definition signup_body (env : Env) (req : Request) : Action Response :=
  let errors := signup_errors req in
  if negb (isEmpty errors) then reply 400 (Errors errors) else
  (* the sanitizers have rewritten req.body.name and req.body.description *)
  let name := trim (req_name req) in
  let description := trim (req_description req) in
  let email := req_email req in
  let password := req_password req in
  existingClub <- Club.findOne (EmailOrName email name) ;;
  match existingClub with
  | Some existing =>
      if verified (doc existing)
      then reply 400 (Message false "Club with this email or name already exists")
      else Club.findByIdAndDelete (_id (doc existing))
  | None => ret tt
  end ;;
  club <- Club.new env name description email password ;;
  Club.save env club ;;
  let otp := generateOTP (random env) in
  OTP.create env email otp ;;
  sendOTPEmail env email otp ;;
  ret {| status := 201;
         body := Sent "OTP sent to your email. Please verify within 10 minutes."
                      email |}.

Definition signup (env : Env) (req : Request) : Store -> Response * Store :=
  route "Error during signup" (signup_body env req).

(** [POST /verify-otp] *)
Definition verify_otp_errors (req : Request) : list string :=
  check (isEmail (req_email req)) "Valid email is required"
  ++ check (isLength_min_max 6 6 (req_otp req)) "OTP must be 6 digits".

Definition verify_otp_body (env : Env) (req : Request) : Action Response :=
  let errors := verify_otp_errors req in
  if negb (isEmpty errors) then reply 400 (Errors errors) else
  let email := req_email req in
  let otp := req_otp req in
  otpRecord <- OTP.findOne email otp ;;
  match otpRecord with
  | None => reply 400 (Message false "Invalid or expired OTP")
  | Some _ =>
      found <- Club.findOne (Email email) ;;
      match found with
      | None => reply 404 (Message false "Club not found")
      | Some club =>
          let club := assign_verified club true in
          Club.save env club ;;
          OTP.deleteOne email otp ;;
          let token := jwt_sign (_id (doc club)) (now env) in
          ret {| status := 200;
                 body := Authenticated "Email verified successfully" token
                           (view_of (doc club)) |}
      end
  end.

Definition verify_otp (env : Env) (req : Request) : Store -> Response * Store :=
  route "Error verifying OTP" (verify_otp_body env req).

(** [POST /resend-otp] *)
Definition resend_otp_errors (req : Request) : list string :=
  check (isEmail (req_email req)) "Valid email is required".

Definition resend_otp_body (env : Env) (req : Request) : Action Response :=
  let errors := resend_otp_errors req in
  if negb (isEmpty errors) then reply 400 (Errors errors) else
  let email := req_email req in
  found <- Club.findOne (EmailVerified email false) ;;
  match found with
  | None => reply 404 (Message false "No unverified club found with this email")
  | Some _ =>
      OTP.deleteMany email ;;
      let otp := generateOTP (random env) in
      OTP.create env email otp ;;
      sendOTPEmail env email otp ;;
      ret {| status := 200;
             body := Message true "New OTP sent to your email" |}
  end.

Definition resend_otp (env : Env) (req : Request) : Store -> Response * Store :=
  route "Error resending OTP" (resend_otp_body env req).

(** [POST /login] *)
Definition login_errors (req : Request) : list string :=
  check (isEmail (req_email req)) "Valid email is required"
  ++ check (notEmpty (req_password req)) "Password is required".

Definition login_body (env : Env) (req : Request) : Action Response :=
  let errors := login_errors req in
  if negb (isEmpty errors) then reply 400 (Errors errors) else
  let email := req_email req in
  let password := req_password req in
  found <- Club.findOne (Email email) ;;
  match found with
  | None => reply 401 (Message false "Invalid email or password")
  | Some club =>
      if negb (verified (doc club))
      then reply 403 (Message false "Please verify your email first")
      else if negb (Club.comparePassword club password)
      then reply 401 (Message false "Invalid email or password")
      else
        let token := jwt_sign (_id (doc club)) (now env) in
        ret {| status := 200;
               body := Authenticated "Login successful" token
                         (view_of (doc club)) |}
  end.

Definition login (env : Env) (req : Request) : Store -> Response * Store :=
  route "Error during login" (login_body env req).

(** [POST /forgot-password] *)
Definition forgot_password_errors (req : Request) : list string :=
  check (isEmail (req_email req)) "Valid email is required".

Definition forgot_password_body (env : Env) (req : Request)
  : Action Response :=
  let errors := forgot_password_errors req in
  if negb (isEmpty errors) then reply 400 (Errors errors) else
  let email := req_email req in
  found <- Club.findOne (EmailVerified email true) ;;
  match found with
  | None => reply 404 (Message false "No verified club found with this email")
  | Some _ =>
      OTP.deleteMany email ;;
      let otp := generateOTP (random env) in
      OTP.create env email otp ;;
      sendOTPEmail env email otp ;;
      ret {| status := 200;
             body := Message true "Password reset OTP sent to your email" |}
  end.

Definition forgot_password (env : Env) (req : Request)
  : Store -> Response * Store :=
  route "Error sending reset OTP" (forgot_password_body env req).

(** [POST /reset-password] *)
Definition reset_password_errors (req : Request) : list string :=
  check (isEmail (req_email req)) "Valid email is required"
  ++ check (isLength_min_max 6 6 (req_otp req)) "OTP must be 6 digits"
  ++ check (isLength_min 6 (req_newPassword req))
       "Password must be at least 6 characters".

Definition reset_password_body (env : Env) (req : Request)
  : Action Response :=
  let errors := reset_password_errors req in
  if negb (isEmpty errors) then reply 400 (Errors errors) else
  let email := req_email req in
  let otp := req_otp req in
  let newPassword := req_newPassword req in
  otpRecord <- OTP.findOne email otp ;;
  match otpRecord with
  | None => reply 400 (Message false "Invalid or expired OTP")
  | Some _ =>
      found <- Club.findOne (EmailVerified email true) ;;
      match found with
      | None => reply 404 (Message false "Club not found")
      | Some club =>
          let club := assign_password club newPassword in
          Club.save env club ;;
          OTP.deleteOne email otp ;;
          ret {| status := 200;
                 body := Message true
                   "Password reset successfully. You can now login with your new password." |}
      end
  end.

Definition reset_password (env : Env) (req : Request)
  : Store -> Response * Store :=
  route "Error resetting password" (reset_password_body env req).

End Routes.

(* ================================================================== *)
(** * Sequences of requests *)
(* ================================================================== *)

Inductive Call :=
| Signup | VerifyOtp | ResendOtp | Login | ForgotPassword | ResetPassword.

Section Traces.
Context {platform : Platform}.

Definition handle (c : Call) : Env -> Request -> Store -> Response * Store :=
  match c with
  | Signup => signup
  | VerifyOtp => verify_otp
  | ResendOtp => resend_otp
  | Login => login
  | ForgotPassword => forgot_password
  | ResetPassword => reset_password
  end.

(** The requests are served one after the other. *)
Fixpoint run (calls : list (Call * Env * Request)) (s : Store)
  : list Response * Store :=
  match calls with
  | [] => ([], s)
  | (c, env, req) :: calls' =>
      let (r, s') := handle c env req s in
      let (rs, s'') := run calls' s' in
      (r :: rs, s'')
  end.

(** The OTP records in the store that were issued for an email. *)
Definition outstanding (e : string) (s : Store) : list OTPDoc :=
  filter (OTP.issued_for e) (otps s).

(** The routes that issue a code and hand it to the mail transport, and
    the message each route's [catch] answers with. *)
Definition issues (c : Call) : bool :=
  match c with
  | Signup | ResendOtp | ForgotPassword => true
  | VerifyOtp | Login | ResetPassword => false
  end.

Definition catch_message (c : Call) : string :=
  match c with
  | Signup => "Error during signup"
  | VerifyOtp => "Error verifying OTP"
  | ResendOtp => "Error resending OTP"
  | Login => "Error during login"
  | ForgotPassword => "Error sending reset OTP"
  | ResetPassword => "Error resetting password"
  end.

(** The two routes that consume a code, the validators of each, and the
    filter each uses to look the account up. *)
Inductive Consumer := ViaVerifyOtp | ViaResetPassword.

Definition consume (via : Consumer)
  : Env -> Request -> Store -> Response * Store :=
  match via with
  | ViaVerifyOtp => verify_otp
  | ViaResetPassword => reset_password
  end.

Definition consume_errors (via : Consumer) : Request -> list string :=
  match via with
  | ViaVerifyOtp => verify_otp_errors
  | ViaResetPassword => reset_password_errors
  end.

Definition account_filter (via : Consumer) (e : string) : ClubFilter :=
  match via with
  | ViaVerifyOtp => Email e
  | ViaResetPassword => EmailVerified e true
  end.

End Traces.

(** What a signup writes: the account it registers under a given id, and,
    as every issuing route does, the OTP record for the request's email. *)
Definition registered {platform : Platform} (env : Env) (req : Request)
    (id : nat) : ClubDoc :=
  {| _id := id;
     name := Club.cast_name (trim (req_name req));
     description := trim (req_description req);
     email := Club.cast_email (req_email req);
     password := bcrypt_hash (req_password req) (salt env);
     verified := false;
     members := [];
     events := [];
     createdAt := now env |}.

Definition issued_otp {platform : Platform} (env : Env) (req : Request)
  : OTPDoc :=
  {| otp_for := otp_email (req_email req);
     otp_code := generateOTP (random env);
     issuedAt := now env |}.

(** The account a signup's [findOne] comes upon, and the [clubs] collection
    once signup has deleted it. *)
Definition existing_club {platform : Platform} (req : Request) (s : Store)
  : option ClubDoc :=
  find (Club.matches (EmailOrName (req_email req) (trim (req_name req))))
    (clubs s).

Definition reclaimed {platform : Platform} (req : Request) (s : Store)
  : list ClubDoc :=
  match existing_club req s with
  | Some c => remove_first (fun c' => Nat.eqb (_id c') (_id c)) (clubs s)
  | None => clubs s
  end.

(** Resend-otp and forgot-password share their shape: an account in the
    wanted state, then every record for the email deleted, one created,
    and the dispatch. *)
Definition reissue_filter {platform : Platform} (c : Call) (e : string) : ClubFilter :=
  match c with
  | ForgotPassword => EmailVerified e true
  | _ => EmailVerified e false
  end.

Definition reissue_errors {platform : Platform} (c : Call) : Request -> list string :=
  match c with
  | ForgotPassword => forgot_password_errors
  | _ => resend_otp_errors
  end.

Definition reissue_done (c : Call) : string :=
  match c with
  | ForgotPassword => "Password reset OTP sent to your email"
  | _ => "New OTP sent to your email"
  end.

(** The same surroundings with the mail transport working or failing. *)
Definition with_mail (ok : bool) (env : Env) : Env :=
  {| now := now env; random := random env; salt := salt env; mail_ok := ok |}.

(** The answer of the consuming routes to a code they do not find. *)
Definition invalid_or_expired : Response :=
  {| status := 400; body := Message false "Invalid or expired OTP" |}.

(** A 2xx answer. *)
Definition succeeded (r : Response) : Prop := 200 <= status r < 300.

(** What the collections guarantee by themselves: document ids are
    distinct and older than the next fresh one, and the unique indexes on
    [email] and [name] hold. *)
Record consistent (s : Store) : Prop := {
  ids_distinct : NoDup (map _id (clubs s));
  ids_issued : Forall (fun c => (_id c < next_id s)%nat) (clubs s);
  emails_distinct : NoDup (map email (clubs s));
  names_distinct : NoDup (map name (clubs s))
}.

(** Every character is one of '0'..'9'. *)
Definition isDigit (c : ascii) : bool :=
  ((48 <=? nat_of_ascii c) && (nat_of_ascii c <=? 57))%nat.

Fixpoint allDigits (s : string) : bool :=
  match s with
  | EmptyString => true
  | String c s' => isDigit c && allDigits s'
  end.

(* ================================================================== *)
(** * An executable platform *)
(* ================================================================== *)

(** A small instance of the library interface on which the routes can be
    run on concrete requests: ASCII [trim] and [toLowerCase], an [isEmail]
    that accepts [local@domain.tld] without blanks, and a stand-in for
    bcrypt that stores the 29 characters of the salt followed by the
    plaintext.  The general
    statements below hold for every platform; this one only serves to
    evaluate the routes. *)
Module Sample.

Local Open Scope string_scope.

Definition is_space (c : ascii) : bool :=
  match nat_of_ascii c with
  | 9%nat | 10%nat | 11%nat | 12%nat | 13%nat | 32%nat => true
  | _ => false
  end.

Fixpoint trim_start (s : string) : string :=
  match s with
  | EmptyString => EmptyString
  | String c s' => if is_space c then trim_start s' else s
  end.

Fixpoint reverse (s acc : string) : string :=
  match s with
  | EmptyString => acc
  | String c s' => reverse s' (String c acc)
  end.

Definition trim (s : string) : string :=
  reverse (trim_start (reverse (trim_start s) "")) "".

Definition lower (c : ascii) : ascii :=
  let n := nat_of_ascii c in
  if ((65 <=? n) && (n <=? 90))%nat then ascii_of_nat (n + 32) else c.

Fixpoint toLowerCase (s : string) : string :=
  match s with
  | EmptyString => EmptyString
  | String c s' => String (lower c) (toLowerCase s')
  end.

Fixpoint count (c : ascii) (s : string) : nat :=
  match s with
  | EmptyString => 0%nat
  | String c' s' => ((if Ascii.eqb c c' then 1 else 0) + count c s')%nat
  end.

Fixpoint after (c : ascii) (s : string) : string :=
  match s with
  | EmptyString => EmptyString
  | String c' s' => if Ascii.eqb c c' then s' else after c s'
  end.

Definition isEmail (s : string) : bool :=
  Nat.eqb (count "@" s) 1
  && Nat.eqb (count " " s) 0
  && negb (String.eqb (after "@" s) s)
  && negb (String.prefix "@" s)
  && (1 <=? count "." (after "@" s))%nat
  && negb (String.prefix "." (after "@" s))
  && negb (String.eqb (after "." (after "@" s)) "").

Definition bcrypt_hash (plaintext salt : string) : string :=
  salt ++ plaintext.

Definition bcrypt_compare (candidate hash : string) : bool :=
  String.eqb (String.substring 29 (String.length hash - 29) hash) candidate.

Definition platform : Platform :=
  Build_Platform trim toLowerCase isEmail bcrypt_hash bcrypt_compare
    (fun e => e).

(** A request body with the fields a route does not read left out. *)
Definition request (n d e p o np : string) : Request :=
  {| req_name := n; req_description := d; req_email := e;
     req_password := p; req_otp := o; req_newPassword := np |}.

(** Surroundings in which the clock reads [t] milliseconds, the random
    generator returns [r] and the mail transport works or not. *)
Definition env (t : Z) (r : Float64.t) (ok : bool) : Env :=
  {| now := t; random := r; salt := "$2a$10$abcdefghijklmnopqrstuv";
     mail_ok := ok |}.

(** Two clubs, and a third signup that takes the email of the first and
    the name of the second. *)
Definition chess : Request :=
  request "Chess Club" "Weekly games" "a@x.com" "secret1" "" "".
Definition go : Request :=
  request "Go Club" "Weekly games" "b@x.com" "secret2" "" "".
Definition go_at_a : Request :=
  request "Go Club" "Weekly games" "a@x.com" "secret3" "" "".
Definition chess_at_c : Request :=
  request "Chess Club" "Weekly games" "c@x.com" "secret4" "" "".
Definition chess_at_b : Request :=
  request "Chess Club" "Weekly games" "b@x.com" "secret5" "" "".

Definition verify (e code : string) : Request :=
  request "" "" e "" code "".
Definition credentials (e p : string) : Request :=
  request "" "" e p "" "".
Definition reset (e code p : string) : Request :=
  request "" "" e "" code p.

(** Two draws: 0, which yields the code "100000", and 1/2, which yields
    "550000". *)
Definition draw_zero : Float64.t := 0.
Definition draw_half : Float64.t := 2 ^ 1073.

(** The value next to 1/2, 1/2 + 2^-53, which yields "550000" as well. *)
Definition draw_half_next : Float64.t := 2 ^ 1073 + 2 ^ 1021.

Definition minute : Z := 60 * 1000.

End Sample.

(* ================================================================== *)
(** * The club router and the public router *)
(* ================================================================== *)

From Stdlib Require Import Permutation.

(** The routes of the club router run behind the auth middleware, which
    puts the club id carried by the session token in [req.clubId]; the
    routes of the public router take their ids from the URL.  Both answer
    with documents, which the auth routes never do. *)

(** A club document without its password: [.select('-password')]. *)
Record Profile := {
  profile_id : nat;
  profile_name : string;
  profile_description : string;
  profile_email : string;
  profile_verified : bool;
  profile_members : list Member;
  profile_events : list Event;
  profile_createdAt : Z
}.

Definition without_password (c : ClubDoc) : Profile :=
  {| profile_id := _id c; profile_name := name c;
     profile_description := description c; profile_email := email c;
     profile_verified := verified c; profile_members := members c;
     profile_events := events c; profile_createdAt := createdAt c |}.

(** A club document as the public sees it:
    [.select('-password -verified')]. *)
Record Listing := {
  listing_id : nat;
  listing_name : string;
  listing_description : string;
  listing_email : string;
  listing_members : list Member;
  listing_events : list Event;
  listing_createdAt : Z
}.

Definition listing_of (c : ClubDoc) : Listing :=
  {| listing_id := _id c; listing_name := name c;
     listing_description := description c; listing_email := email c;
     listing_members := members c; listing_events := events c;
     listing_createdAt := createdAt c |}.

Inductive Payload :=
| Basic (b : Body)                                  (* as the auth routes *)
| OneClub (club : Profile)                          (* { success: true, club } *)
| OneClubSaid (message : string) (club : Profile)   (* { success: true, message, club } *)
| ManyClubs (clubs : list Listing)                  (* { success: true, clubs } *)
| OneListing (club : Listing).                      (* { success: true, club } *)

Record Answer := {
  answer_status : Z;
  answer_body : Payload
}.

Definition set_description (c : ClubDoc) (d : string) : ClubDoc :=
  {| _id := _id c; name := name c; description := d;
     email := email c; password := password c; verified := verified c;
     members := members c; events := events c; createdAt := createdAt c |}.

(** [.sort({ createdAt: -1 })]: newest first; documents created at the
    same instant keep their natural order. *)
Fixpoint insert_newest (c : ClubDoc) (l : list ClubDoc) : list ClubDoc :=
  match l with
  | [] => [c]
  | d :: l' =>
      if createdAt d <=? createdAt c then c :: l
      else d :: insert_newest c l'
  end.

Fixpoint newest_first (l : list ClubDoc) : list ClubDoc :=
  match l with
  | [] => []
  | c :: l' => insert_newest c (newest_first l')
  end.

Section ClubRoutes.
Context {platform : Platform}.

Local Open Scope string_scope.
Local Open Scope action_scope.

(** The document [Club.findById(id)] resolves to, if any. *)
Definition resolve (id : nat) (s : Store) : option ClubDoc :=
  match fst (Club.findById id s) with
  | Value (Some d) => Some (doc d)
  | _ => None
  end.

(** [GET /profile] *)
Definition get_profile (clubId : nat) (s : Store) : Answer :=
  match resolve clubId s with
  | None => {| answer_status := 404;
               answer_body := Basic (Message false "Club not found") |}
  | Some club => {| answer_status := 200;
                    answer_body := OneClub (without_password club) |}
  end.

(** [Club.findByIdAndUpdate(id, { description }, { new: true,
    runValidators: true })]: the document is rewritten in place, without
    the save hooks, and the new version is returned. *)
Definition findByIdAndUpdate_description (id : nat) (d : string) (s : Store)
  : option ClubDoc * Store :=
  match resolve id s with
  | None => (None, s)
  | Some c =>
      let c' := set_description c d in
      (Some c',
       {| clubs := Club.replace c' (clubs s); otps := otps s;
          next_id := next_id s |})
  end.

(** [PUT /profile] *)
Definition update_profile_errors (req : Request) : list string :=
  check (notEmpty (trim (req_description req))) "Description is required".

Definition update_profile (clubId : nat) (req : Request) (s : Store)
  : Answer * Store :=
  let errors := update_profile_errors req in
  if negb (isEmpty errors)
  then ({| answer_status := 400; answer_body := Basic (Errors errors) |}, s)
  else
    let description := trim (req_description req) in
    match findByIdAndUpdate_description clubId description s with
    | (None, s') =>
        ({| answer_status := 404;
            answer_body := Basic (Message false "Club not found") |}, s')
    | (Some club, s') =>
        ({| answer_status := 200;
            answer_body := OneClubSaid "Profile updated successfully"
                             (without_password club) |}, s')
    end.

(** [DELETE /delete-account] *)
Definition delete_account_body (clubId : nat) : Action Response :=
  club <- Club.findById clubId ;;
  match club with
  | None => reply 404 (Message false "Club not found")
  | Some _ =>
      Club.findByIdAndDelete clubId ;;
      ret {| status := 200;
             body := Message true
               "Club account deleted successfully. All associated data has been removed." |}
  end.

Definition delete_account (clubId : nat) : Store -> Response * Store :=
  route "Error deleting club account" (delete_account_body clubId).

(** [GET /clubs] *)
Definition get_clubs (s : Store) : Answer :=
  {| answer_status := 200;
     answer_body :=
       ManyClubs (map listing_of (newest_first (filter verified (clubs s)))) |}.

(** [GET /clubs/:clubId].  The id comes from the URL as a string;
    [castObjectId] is Mongoose's cast of it to a document id, which either
    succeeds or throws with a message of its own. *)
Definition get_club (castObjectId : string -> string + nat)
    (clubId : string) (s : Store) : Answer :=
  match castObjectId clubId with
  | inl error =>
      {| answer_status := 500;
         answer_body := Basic (Failure "Error fetching club details" error) |}
  | inr id =>
      match find (fun c => Nat.eqb (_id c) id && Bool.eqb (verified c) true)
              (clubs s) with
      | None => {| answer_status := 404;
                   answer_body := Basic (Message false "Club not found") |}
      | Some club => {| answer_status := 200;
                        answer_body := OneListing (listing_of club) |}
      end
  end.

(** The validators of each auth route. *)
Definition errors_of (c : Call) : Request -> list string :=
  match c with
  | Signup => signup_errors
  | VerifyOtp => verify_otp_errors
  | ResendOtp => resend_otp_errors
  | Login => login_errors
  | ForgotPassword => forgot_password_errors
  | ResetPassword => reset_password_errors
  end.

(** A request to any of the routes that write to the store. *)
Inductive Operation :=
| Auth (c : Call) (env : Env) (req : Request)
| UpdateProfile (clubId : nat) (req : Request)
| DeleteAccount (clubId : nat).

Definition perform (op : Operation) (s : Store) : Store :=
  match op with
  | Auth c env req => snd (handle c env req s)
  | UpdateProfile clubId req => snd (update_profile clubId req s)
  | DeleteAccount clubId => snd (delete_account clubId s)
  end.

Fixpoint serve (ops : list Operation) (s : Store) : Store :=
  match ops with
  | [] => s
  | op :: ops' => serve ops' (perform op s)
  end.

End ClubRoutes.

(** The stored password is some plaintext hashed under some salt. *)
Definition hashed {platform : Platform} (c : ClubDoc) : Prop :=
  exists plaintext salt, password c = bcrypt_hash plaintext salt.

(** The request was served with a [Math.random()] in [0, 1). *)
Definition draw_valid {platform : Platform} (op : Operation) : Prop :=
  match op with
  | Auth _ env _ =>
      Float64.representable (random env) /\ random env < Float64.unit
  | _ => True
  end.

(** A code of six decimal digits. *)
Definition six_digit_code (code : string) : Prop :=
  String.length code = 6%nat /\ allDigits code = true.


Definition login_request (e p : string) : Request :=
  {| req_name := ""; req_description := ""; req_email := e;
     req_password := p; req_otp := ""; req_newPassword := "" |}.


(** Sorted newest first. *)
Fixpoint newest_to_oldest (l : list ClubDoc) : Prop :=
  match l with
  | [] => True
  | c :: l' => (forall d, In d l' -> createdAt d <= createdAt c)
               /\ newest_to_oldest l'
  end.

(** More sample data for the executable platform. *)
Module Cases.

Local Open Scope string_scope.

(** A cast of one-digit ids, standing for Mongoose's cast of 24 hex
    digits. *)
Definition cast_id (x : string) : string + nat :=
  match x with
  | String c EmptyString =>
      if isDigit c then inr (nat_of_ascii c - 48)%nat
      else inl "Cast to ObjectId failed"
  | _ => inl "Cast to ObjectId failed"
  end.

(** A store with a verified "Go Club" and an unverified "Chess Club". *)
Definition two_clubs : Store :=
  snd (run (platform := Sample.platform)
         [(Signup, Sample.env 0 Sample.draw_half true, Sample.go);
          (VerifyOtp, Sample.env 1000 Sample.draw_zero true,
           Sample.verify "b@x.com" "550000");
          (Signup, Sample.env 2000 Sample.draw_zero true, Sample.chess)]
         empty_store).

End Cases.

(* ================================================================== *)
(** * Facts on rounding *)
(* ================================================================== *)

Module Float64Facts.
Import Float64.

Lemma ulp_exp_nonneg n : 0 <= ulp_exp n.
Proof. unfold ulp_exp. lia. Qed.

Lemma ulp_pos n : 0 < 2 ^ ulp_exp n.
Proof. apply Z.pow_pos_nonneg; [lia | apply ulp_exp_nonneg]. Qed.

Lemma ulp_exp_mono a n : 0 < a <= n -> ulp_exp a <= ulp_exp n.
Proof.
  intros Han. unfold ulp_exp.
  assert (Z.log2 a <= Z.log2 n) by (apply Z.log2_le_mono; lia). lia.
Qed.

(** The rounding lands on one of the two neighbours on the grid of the
    binade, and goes up only from strictly between them. *)
Lemma round_neighbours n :
  round n = n / 2 ^ ulp_exp n * 2 ^ ulp_exp n
  \/ (round n = (n / 2 ^ ulp_exp n + 1) * 2 ^ ulp_exp n
      /\ 0 < n mod 2 ^ ulp_exp n).
Proof.
  unfold round. pose proof (ulp_pos n) as HP.
  set (P := 2 ^ ulp_exp n) in *.
  destruct (2 * (n mod P) <? P) eqn:E1; [now left|].
  apply Z.ltb_ge in E1.
  destruct (P <? 2 * (n mod P)) eqn:E2; [right; split; [reflexivity | lia]|].
  destruct (Z.even (n / P)); [now left | right; split; [reflexivity | lia]].
Qed.

Lemma round_floor_le n : 0 <= n -> n / 2 ^ ulp_exp n * 2 ^ ulp_exp n <= round n.
Proof.
  intros Hn. pose proof (ulp_pos n) as HP.
  destruct (round_neighbours n) as [-> | [-> _]]; lia.
Qed.

(** Above 2^53 the quotient by the unit in the last place has 53 bits. *)
Lemma binade n :
  0 < n -> 1 <= ulp_exp n ->
  2 ^ 52 * 2 ^ ulp_exp n <= n < 2 ^ 53 * 2 ^ ulp_exp n.
Proof.
  intros Hn Hs. unfold ulp_exp in *.
  assert (Es : Z.max 0 (Z.log2 n - 52) = Z.log2 n - 52) by lia.
  rewrite Es in *.
  pose proof (Z.log2_spec n Hn) as [Hlo Hhi].
  rewrite <- !Z.pow_add_r by lia.
  replace (52 + (Z.log2 n - 52)) with (Z.log2 n) by lia.
  replace (53 + (Z.log2 n - 52)) with (Z.succ (Z.log2 n)) by lia.
  lia.
Qed.

Lemma round_upper n c :
  0 <= n <= c -> c mod 2 ^ ulp_exp c = 0 -> round n <= c.
Proof.
  intros [Hn Hnc] Hc. pose proof (ulp_pos n) as HP.
  assert (Hdm : n = 2 ^ ulp_exp n * (n / 2 ^ ulp_exp n) + n mod 2 ^ ulp_exp n)
    by (apply Z.div_mod; lia).
  pose proof (Z.mod_pos_bound n (2 ^ ulp_exp n) HP) as Hr.
  destruct (round_neighbours n) as [-> | [-> Hpos]]; [lia|].
  assert (Hn0 : 0 < n).
  { destruct (Z.eq_dec n 0) as [E0 | ]; [|lia].
    rewrite E0, Zmod_0_l in Hpos; lia. }
  assert (Hmono : ulp_exp n <= ulp_exp c) by (apply ulp_exp_mono; lia).
  destruct (Z.eq_dec (ulp_exp n) (ulp_exp c)) as [E | NE].
  - rewrite <- E in Hc.
    apply Z.mod_divide in Hc; [|lia]. destruct Hc as [k Hk].
    set (P := 2 ^ ulp_exp n) in *. set (q := n / P) in *.
    assert (q < k) by nia. nia.
  - assert (Hs : 1 <= ulp_exp n).
    { destruct (Z.eq_dec (ulp_exp n) 0) as [E0|]; [|pose proof (ulp_exp_nonneg n); lia].
      rewrite E0 in *. change (2 ^ 0) with 1 in *. lia. }
    pose proof (binade n Hn0 Hs) as [_ Hhi].
    assert (Hc0 : 0 < c) by lia.
    assert (Hsc : 1 <= ulp_exp c) by lia.
    pose proof (binade c Hc0 Hsc) as [Hlo _].
    assert (2 ^ ulp_exp c = 2 ^ ulp_exp n * 2 ^ (ulp_exp c - ulp_exp n)) as Epow.
    { rewrite <- Z.pow_add_r by lia. f_equal. lia. }
    assert (2 <= 2 ^ (ulp_exp c - ulp_exp n)).
    { change 2 with (2 ^ 1) at 1. apply Z.pow_le_mono_r; lia. }
    set (P := 2 ^ ulp_exp n) in *. set (q := n / P) in *.
    set (D := 2 ^ (ulp_exp c - ulp_exp n)) in *.
    assert (q + 1 <= 2 ^ 53) by nia.
    change (2 ^ 52) with 4503599627370496 in *.
    change (2 ^ 53) with 9007199254740992 in *.
    nia.
Qed.

Lemma round_lower a n :
  0 <= a <= n -> a mod 2 ^ ulp_exp a = 0 -> a <= round n.
Proof.
  intros [Ha Han] Hmod. pose proof (ulp_pos n) as HP.
  assert (Hdm : n = 2 ^ ulp_exp n * (n / 2 ^ ulp_exp n) + n mod 2 ^ ulp_exp n)
    by (apply Z.div_mod; lia).
  pose proof (Z.mod_pos_bound n (2 ^ ulp_exp n) HP) as Hr.
  assert (Hn : 0 <= n) by lia.
  pose proof (round_floor_le n Hn) as Hfl.
  destruct (Z.eq_dec a 0) as [-> | Ha0].
  { assert (0 <= n / 2 ^ ulp_exp n) by (apply Z.div_pos; lia). nia. }
  assert (Hmono : ulp_exp a <= ulp_exp n) by (apply ulp_exp_mono; lia).
  destruct (Z.eq_dec (ulp_exp a) (ulp_exp n)) as [E | NE].
  - rewrite E in Hmod.
    apply Z.mod_divide in Hmod; [|lia]. destruct Hmod as [k Hk].
    set (P := 2 ^ ulp_exp n) in *. set (q := n / P) in *.
    assert (k <= q) by nia. nia.
  - assert (Hs : 1 <= ulp_exp n) by (pose proof (ulp_exp_nonneg a); lia).
    assert (Hn0 : 0 < n) by lia.
    pose proof (binade n Hn0 Hs) as [Hlo _].
    assert (a < 2 ^ 52 * 2 ^ ulp_exp n).
    { assert (Ha1 : 0 < a) by lia.
      pose proof (Z.log2_spec a Ha1) as [_ Hhi].
      unfold ulp_exp in *.
      assert (Z.succ (Z.log2 a) <= 52 + Z.max 0 (Z.log2 n - 52)) by lia.
      rewrite <- Z.pow_add_r by lia.
      eapply Z.lt_le_trans; [exact Hhi|]. apply Z.pow_le_mono_r; lia. }
    set (P := 2 ^ ulp_exp n) in *. set (q := n / P) in *.
    change (2 ^ 52) with 4503599627370496 in *.
    assert (4503599627370496 <= q) by nia.
    nia.
Qed.

Lemma representable_grid n : representable n -> n mod 2 ^ ulp_exp n = 0.
Proof.
  intros [Hn Hr]. pose proof (ulp_pos n) as HP.
  destruct (round_neighbours n) as [E | [E _]]; rewrite Hr in E;
    rewrite E at 1; apply Z.mod_mul; lia.
Qed.

Lemma grid_representable n : 0 <= n -> n mod 2 ^ ulp_exp n = 0 -> representable n.
Proof.
  intros Hn Hm. split; [exact Hn|]. unfold round. rewrite Hm.
  pose proof (ulp_pos n) as HP. 
  replace (2 * 0 <? 2 ^ ulp_exp n) with true by (symmetry; apply Z.ltb_lt; lia).
  assert (n = 2 ^ ulp_exp n * (n / 2 ^ ulp_exp n) + n mod 2 ^ ulp_exp n)
    by (apply Z.div_mod; lia).
  lia.
Qed.

(** The largest value below one is 1 - 2^-53. *)
Lemma below_one r : representable r -> r < unit -> r <= unit - 2 ^ 1021.
Proof.
  intros Hrep Hlt. pose proof (representable_grid r Hrep) as Hg.
  destruct Hrep as [H0 _]. unfold unit, emin in *.
  destruct (Z_lt_le_dec r (2 ^ 1073)) as [Hs | Hb]; [lia|].
  assert (El : Z.log2 r = 1073) by (apply Z.log2_unique; lia).
  unfold ulp_exp in Hg. rewrite El in Hg. change (Z.max 0 (1073 - 52)) with 1021 in Hg.
  apply Z.mod_divide in Hg; [|lia]. destruct Hg as [k Hk]. lia.
Qed.

Lemma floor_draw r :
  representable r -> r < unit ->
  100000 <= floor (add (of_int 100000) (mul_int r 900000)) <= 999999.
Proof.
  intros Hrep Hlt. pose proof (below_one r Hrep Hlt) as Hmax.
  destruct Hrep as [H0 _].
  assert (E1 : of_int 100000 = 100000 * unit) by (vm_compute; reflexivity).
  rewrite E1. unfold mul_int, add, floor.
  set (c1 := 900000 * unit - 2 ^ 1041).
  assert (Hx : 0 <= round (r * 900000) <= c1).
  { split.
    - apply round_lower; [lia | reflexivity].
    - destruct (Z_le_gt_dec (r * 900000) c1) as [Hle | Hgt].
      + apply round_upper; [lia | vm_compute; reflexivity].
      + subst c1. unfold unit, emin in *.
        assert (El : Z.log2 (r * 900000) = 1093)
          by (apply Z.log2_unique; lia).
        unfold round, ulp_exp. rewrite El.
        change (Z.max 0 (1093 - 52)) with 1041.
        assert (Ed : (r * 900000) / 2 ^ 1041 = 900000 * 2 ^ 33 - 1)
          by (symmetry; apply Z.div_unique with (r * 900000 - (900000 * 2 ^ 1074 - 2 ^ 1041)); lia).
        assert (Em : (r * 900000) mod 2 ^ 1041
                     = r * 900000 - (900000 * 2 ^ 1074 - 2 ^ 1041))
          by (symmetry; apply Z.mod_unique with (900000 * 2 ^ 33 - 1); lia).
        rewrite Ed, Em.
        replace (2 * (r * 900000 - (900000 * 2 ^ 1074 - 2 ^ 1041)) <? 2 ^ 1041)
          with true by (symmetry; apply Z.ltb_lt; lia).
        lia. }
  set (y := round (r * 900000)) in *.
  assert (Hz : 100000 * unit <= round (100000 * unit + y)
               <= 1000000 * unit - 2 ^ 1041).
  { split.
    - apply round_lower; [unfold unit, emin; lia | vm_compute; reflexivity].
    - apply round_upper; [subst c1; unfold unit, emin in *; lia
                         | vm_compute; reflexivity]. }
  set (z := round (100000 * unit + y)) in *.
  unfold unit, emin in *. split.
  - apply Z.div_le_lower_bound; lia.
  - assert (z / 2 ^ 1074 < 1000000) by (apply Z.div_lt_upper_bound; lia). lia.
Qed.

End Float64Facts.

(* ================================================================== *)
(** * The OTP generator *)
(* ================================================================== *)

Section Generator.

Lemma digitChar_isDigit d : 0 <= d <= 9 -> isDigit (digitChar d) = true.
Proof.
  intros Hd.
  assert (Hc : d = 0 \/ d = 1 \/ d = 2 \/ d = 3 \/ d = 4 \/ d = 5 \/ d = 6
               \/ d = 7 \/ d = 8 \/ d = 9) by lia.
  repeat (destruct Hc as [-> | Hc]; [reflexivity|]). subst d. reflexivity.
Qed.

Lemma digitChar_zero d : 0 <= d <= 9 -> digitChar d = "0"%char -> d = 0.
Proof.
  intros Hd.
  assert (Hc : d = 0 \/ d = 1 \/ d = 2 \/ d = 3 \/ d = 4 \/ d = 5 \/ d = 6
               \/ d = 7 \/ d = 8 \/ d = 9) by lia.
  repeat (destruct Hc as [-> | Hc]; [vm_compute; congruence|]).
  subst d. vm_compute; congruence.
Qed.

(** The decimal rendering of a six-digit number, digit by digit. *)
Lemma toString_six n :
  100000 <= n <= 999999 ->
  toString n =
    String (digitChar (n / 100000))
      (String (digitChar (n / 10000 mod 10))
         (String (digitChar (n / 1000 mod 10))
            (String (digitChar (n / 100 mod 10))
               (String (digitChar (n / 10 mod 10))
                  (String (digitChar (n mod 10)) EmptyString))))).
Proof.
  intros Hn. unfold toString.
  assert (Hl : 16 <= Z.log2 n).
  { change 16 with (Z.log2 65536). apply Z.log2_le_mono. lia. }
  destruct (Z.to_nat (Z.log2 n)) as [|[|[|[|[|k]]]]] eqn:Ek; try lia.
  cbn [digitsAcc].
  assert (D2 : n / 10 / 10 = n / 100) by (rewrite Z.div_div by lia; reflexivity).
  assert (D3 : n / 100 / 10 = n / 1000) by (rewrite Z.div_div by lia; reflexivity).
  assert (D4 : n / 1000 / 10 = n / 10000) by (rewrite Z.div_div by lia; reflexivity).
  assert (D5 : n / 10000 / 10 = n / 100000) by (rewrite Z.div_div by lia; reflexivity).
  assert (D6 : n / 100000 / 10 = n / 1000000) by (rewrite Z.div_div by lia; reflexivity).
  rewrite ?D2, ?D3, ?D4, ?D5, ?D6.
  assert (E1 : (n / 10 =? 0) = false)
    by (apply Z.eqb_neq; Z.to_euclidean_division_equations; lia).
  assert (E2 : (n / 100 =? 0) = false)
    by (apply Z.eqb_neq; Z.to_euclidean_division_equations; lia).
  assert (E3 : (n / 1000 =? 0) = false)
    by (apply Z.eqb_neq; Z.to_euclidean_division_equations; lia).
  assert (E4 : (n / 10000 =? 0) = false)
    by (apply Z.eqb_neq; Z.to_euclidean_division_equations; lia).
  assert (E5 : (n / 100000 =? 0) = false)
    by (apply Z.eqb_neq; Z.to_euclidean_division_equations; lia).
  assert (E6 : (n / 1000000 =? 0) = true)
    by (apply Z.eqb_eq; Z.to_euclidean_division_equations; lia).
  rewrite E1, E2, E3, E4, E5, E6.
  replace (n / 100000 mod 10) with (n / 100000)
    by (Z.to_euclidean_division_equations; lia).
  reflexivity.
Qed.

(** Whatever [Math.random()] returns, the code is the decimal rendering
    of an integer between 100000 and 999999. *)
Lemma generateOTP_value r :
  Float64.representable r -> r < Float64.unit ->
  exists n, 100000 <= n <= 999999 /\ generateOTP r = toString n.
Proof.
  intros Hrep Hlt. eexists. split; [|reflexivity].
  apply Float64Facts.floor_draw; assumption.
Qed.

Lemma six_digits_shape n :
  100000 <= n <= 999999 ->
  String.length (toString n) = 6%nat
  /\ allDigits (toString n) = true
  /\ String.prefix "0" (toString n) = false.
Proof.
  intros Hn. rewrite (toString_six n Hn). split; [reflexivity|]. split.
  - cbn [allDigits].
    rewrite !digitChar_isDigit
      by (Z.to_euclidean_division_equations; lia).
    reflexivity.
  - cbn [String.prefix].
    destruct (ascii_dec "0" (digitChar (n / 100000))) as [E | NE];
      [|reflexivity].
    symmetry in E. apply digitChar_zero in E;
      Z.to_euclidean_division_equations; lia.
Qed.

End Generator.

(** C3 (amended).  For every value in [0, 1) that [Math.random()] may
    return, the code [generateOTP] produces is a string of exactly six
    ASCII digits, the decimal rendering of an integer between 100000 and
    999999; its first digit is never '0'. *)
Theorem generateOTP_six_digits (r : Float64.t) :
  Float64.representable r -> r < Float64.unit ->
  String.length (generateOTP r) = 6%nat
  /\ allDigits (generateOTP r) = true
  /\ String.prefix "0" (generateOTP r) = false
  /\ exists n, 100000 <= n <= 999999 /\ generateOTP r = toString n.
Proof.
  intros Hrep Hlt.
  destruct (generateOTP_value r Hrep Hlt) as [n [Hn E]].
  destruct (six_digits_shape n Hn) as [Hlen [Hall Hpre]].
  rewrite E. repeat split; try assumption.
  exists n. split; [assumption | reflexivity].
Qed.

(** The draw 1/2 gives "550000". *)
Lemma generateOTP_six_digits_witness :
  Float64.representable (2 ^ 1073)
  /\ 2 ^ 1073 < Float64.unit
  /\ String.length (generateOTP (2 ^ 1073)) = 6%nat
  /\ allDigits (generateOTP (2 ^ 1073)) = true
  /\ String.prefix "0" (generateOTP (2 ^ 1073)) = false
  /\ exists n, 100000 <= n <= 999999 /\ generateOTP (2 ^ 1073) = toString n.
Proof.
  assert (Hrep : Float64.representable (2 ^ 1073))
    by (split; [vm_compute; discriminate | vm_compute; reflexivity]).
  assert (Hlt : 2 ^ 1073 < Float64.unit) by (vm_compute; reflexivity).
  split; [exact Hrep|]. split; [exact Hlt|].
  exact (generateOTP_six_digits (2 ^ 1073) Hrep Hlt).
Defined.

(** C3 (as stated) fails: the smallest draw, 0, gives "100000" and not
    "000000", and no draw at all gives a code that begins with '0'. *)
Lemma generateOTP_never_leading_zero :
  generateOTP 0 = "100000"%string
  /\ ~ exists r, Float64.representable r /\ r < Float64.unit
                 /\ String.prefix "0" (generateOTP r) = true.
Proof.
  split; [vm_compute; reflexivity|].
  intros [r [Hrep [Hlt Hpre]]].
  destruct (generateOTP_value r Hrep Hlt) as [n [Hn E]].
  destruct (six_digits_shape n Hn) as [_ [_ Hno]].
  rewrite E in Hpre. congruence.
Qed.

(** Both ends of the range are reached: by the smallest draw and by the
    largest one below 1. *)
Example generateOTP_extremes :
  generateOTP 0 = "100000"%string
  /\ generateOTP (2 ^ 1074 - 2 ^ 1021) = "999999"%string.
Proof. split; vm_compute; reflexivity. Qed.

(* ================================================================== *)
(** * Collections *)
(* ================================================================== *)

Section Collections.
Context {A : Type}.

Lemma find_In (p : A -> bool) l x : find p l = Some x -> In x l /\ p x = true.
Proof. apply find_some. Qed.

Lemma find_none_all (p : A -> bool) l :
  find p l = None <-> forall x, In x l -> p x = false.
Proof.
  split; [apply find_none|].
  induction l as [|y l IH]; intros Hall; [reflexivity|]. cbn.
  rewrite (Hall y (or_introl eq_refl)). apply IH.
  intros x Hx. apply Hall. now right.
Qed.

Lemma remove_first_In (p : A -> bool) l x :
  In x (remove_first p l) -> In x l.
Proof.
  induction l as [|y l IH]; cbn; [tauto|].
  destruct (p y); cbn; intuition.
Qed.

Lemma remove_first_map_NoDup {B} (f : A -> B) (p : A -> bool) l :
  NoDup (map f l) -> NoDup (map f (remove_first p l)).
Proof.
  induction l as [|y l IH]; cbn; intros Hnd; [constructor|].
  inversion Hnd as [|? ? Hnotin Hnd']; subst.
  destruct (p y); [assumption|]. cbn. constructor; [|now apply IH].
  intros Hin. apply Hnotin. apply in_map_iff in Hin as [z [Ez Hz]].
  apply in_map_iff. exists z. split; [assumption|].
  eapply remove_first_In; eassumption.
Qed.

Lemma remove_all_In (p : A -> bool) l x :
  In x (remove_all p l) <-> In x l /\ p x = false.
Proof.
  unfold remove_all. rewrite filter_In. rewrite negb_true_iff. tauto.
Qed.

Lemma filter_none (p : A -> bool) l :
  (forall x, In x l -> p x = false) -> filter p l = [].
Proof.
  induction l as [|y l IH]; intros Hall; [reflexivity|]. cbn.
  rewrite (Hall y (or_introl eq_refl)). apply IH.
  intros x Hx. apply Hall. now right.
Qed.

End Collections.

(* ================================================================== *)
(** * Login *)
(* ================================================================== *)

Section LoginFacts.
Context {platform : Platform}.

(** With distinct emails, the first document a filter on the email
    finds is the one that carries it. *)
Lemma find_by_email (l : list ClubDoc) (c : ClubDoc) (e : string) :
  NoDup (map email l) -> In c l -> Club.cast_email e = email c ->
  find (Club.matches (Email e)) l = Some c.
Proof.
  intros Hnd Hin He. induction l as [|c' l IH]; [contradiction|].
  cbn [find Club.matches]. inversion Hnd as [|? ? Hnotin Hnd']; subst.
  destruct Hin as [-> | Hin].
  - rewrite He, String.eqb_refl. reflexivity.
  - destruct (String.eqb_spec (email c') (Club.cast_email e)) as [E | NE].
    + exfalso. apply Hnotin. rewrite E, He. now apply in_map.
    + now apply IH.
Qed.

End LoginFacts.

(** C7.  In a consistent store (distinct ids, emails and names), for every
    account whose [verified] flag is false, a login with that account's
    email never returns a token, leaves the store as it is, and, once the
    request passes the validators, is answered 403 "Please verify your
    email first", whatever password is supplied and whatever bcrypt makes
    of it. *)
Theorem login_unverified_refused {platform : Platform}
    (env : Env) (req : Request) (s : Store) (c : ClubDoc) :
  consistent s -> In c (clubs s) -> verified c = false ->
  Club.cast_email (req_email req) = email c ->
  snd (login env req s) = s
  /\ status (fst (login env req s)) <> 200
  /\ (forall m t v, body (fst (login env req s)) <> Authenticated m t v)
  /\ (login_errors req = [] ->
      fst (login env req s)
      = {| status := 403;
           body := Message false "Please verify your email first" |}).
Proof.
  intros Hs Hin Hv He.
  pose proof (find_by_email (clubs s) c (req_email req)
                (emails_distinct s Hs) Hin He) as Hfind.
  unfold login, route, login_body.
  destruct (isEmpty (login_errors req)) eqn:Eerr; cbn [negb].
  - unfold bind, Club.findOne. rewrite Hfind. cbn. rewrite Hv. cbn.
    repeat split; try discriminate. 
  - cbn. repeat split; try discriminate.
    intros Hnil. rewrite Hnil in Eerr. discriminate.
Qed.

(* ================================================================== *)
(** * Consuming a code *)
(* ================================================================== *)

Section ConsumeFacts.
Context {platform : Platform}.

Lemma isEmpty_nil (errors : list string) : errors = [] -> isEmpty errors = true.
Proof. now intros ->. Qed.

(** What the two consuming routes answer, by cases on what the two
    lookups find. *)
Lemma consume_not_found via env req s :
  consume_errors via req = [] ->
  find (OTP.matches (req_email req) (req_otp req)) (otps s) = None ->
  consume via env req s = (invalid_or_expired, s).
Proof.
  intros Herr Hnone.
  destruct via; cbn [consume consume_errors] in *;
    unfold verify_otp, reset_password, route, verify_otp_body,
      reset_password_body;
    rewrite Herr; cbn [isEmpty negb];
    unfold bind, OTP.findOne; rewrite Hnone; reflexivity.
Qed.

Lemma consume_no_account via env req s rec :
  consume_errors via req = [] ->
  find (OTP.matches (req_email req) (req_otp req)) (otps s) = Some rec ->
  find (Club.matches (account_filter via (req_email req))) (clubs s) = None ->
  consume via env req s
  = ({| status := 404; body := Message false "Club not found" |}, s).
Proof.
  intros Herr Hotp Hclub.
  destruct via; cbn [consume consume_errors account_filter] in *;
    unfold verify_otp, reset_password, route, verify_otp_body,
      reset_password_body;
    rewrite Herr; cbn [isEmpty negb];
    unfold bind, OTP.findOne, Club.findOne; rewrite Hotp, Hclub;
    reflexivity.
Qed.

Lemma consume_found via env req s rec c :
  consume_errors via req = [] ->
  find (OTP.matches (req_email req) (req_otp req)) (otps s) = Some rec ->
  find (Club.matches (account_filter via (req_email req))) (clubs s) = Some c ->
  status (fst (consume via env req s)) = 200
  /\ otps (snd (consume via env req s))
     = remove_first (OTP.matches (req_email req) (req_otp req)) (otps s).
Proof.
  intros Herr Hotp Hclub.
  destruct via; cbn [consume consume_errors account_filter] in *;
    unfold verify_otp, reset_password, route, verify_otp_body,
      reset_password_body;
    rewrite Herr; cbn [isEmpty negb];
    unfold bind, OTP.findOne, Club.findOne; rewrite Hotp, Hclub;
    cbn; split; reflexivity.
Qed.

End ConsumeFacts.

(** C10.  When a verify-otp or reset-password request that passes the
    validators matches a stored OTP record but the account lookup of the
    route (any account for verify-otp, a verified one for reset-password)
    finds nothing, the answer is 404 "Club not found" and the store is
    left exactly as it was: the matched record is still there, no account
    has changed, and a later call that does find an account consumes it. *)
Theorem otp_survives_account_not_found {platform : Platform}
    (via : Consumer) (env : Env) (req : Request) (s : Store) (rec : OTPDoc) :
  consume_errors via req = [] ->
  find (OTP.matches (req_email req) (req_otp req)) (otps s) = Some rec ->
  find (Club.matches (account_filter via (req_email req))) (clubs s) = None ->
  consume via env req s
  = ({| status := 404; body := Message false "Club not found" |}, s)
  /\ find (OTP.matches (req_email req) (req_otp req))
       (otps (snd (consume via env req s))) = Some rec
  /\ clubs (snd (consume via env req s)) = clubs s
  /\ (forall env' s' c,
        otps s' = otps (snd (consume via env req s)) ->
        find (Club.matches (account_filter via (req_email req))) (clubs s')
        = Some c ->
        status (fst (consume via env' req s')) = 200).
Proof.
  intros Herr Hotp Hclub.
  rewrite (consume_no_account via env req s rec Herr Hotp Hclub).
  cbn [fst snd]. repeat split; try assumption.
  intros env' s' c Hsame Hc. rewrite <- Hsame in Hotp.
  apply (consume_found via env' req s' rec c Herr Hotp Hc).
Qed.

(** A signup for a@x.com is displaced by a signup under the same club name
    and another email; the code sent to a@x.com then meets no account. *)
Lemma otp_survives_account_not_found_witness :
  let P := Sample.platform in
  let s := snd (run (platform := P)
                  [(Signup, Sample.env 0 Sample.draw_zero true, Sample.chess);
                   (Signup, Sample.env 1000 Sample.draw_half true,
                    Sample.chess_at_c)]
                  empty_store) in
  let env := Sample.env 2000 Sample.draw_zero true in
  let req := Sample.verify "a@x.com" "100000" in
  let rec := {| otp_for := "a@x.com"; otp_code := "100000"; issuedAt := 0 |} in
  consume_errors (platform := P) ViaVerifyOtp req = []
  /\ find (OTP.matches (platform := P) (req_email req) (req_otp req)) (otps s)
     = Some rec
  /\ find (Club.matches (platform := P)
             (account_filter ViaVerifyOtp (req_email req))) (clubs s) = None
  /\ consume (platform := P) ViaVerifyOtp env req s
     = ({| status := 404; body := Message false "Club not found" |}, s).
Proof.
  intros P s env req rec.
  assert (H1 : consume_errors (platform := P) ViaVerifyOtp req = [])
    by (vm_compute; reflexivity).
  assert (H2 : find (OTP.matches (platform := P) (req_email req) (req_otp req))
                 (otps s) = Some rec) by (vm_compute; reflexivity).
  assert (H3 : find (Club.matches (platform := P)
                       (account_filter ViaVerifyOtp (req_email req)))
                 (clubs s) = None) by (vm_compute; reflexivity).
  split; [exact H1|]. split; [exact H2|]. split; [exact H3|].
  exact (proj1 (otp_survives_account_not_found (platform := P)
                  ViaVerifyOtp env req s rec H1 H2 H3)).
Defined.

(** The same on reset-password: the account exists but is unverified. *)
Example reset_password_unverified_keeps_otp :
  let P := Sample.platform in
  let s := snd (run (platform := P)
                  [(Signup, Sample.env 0 Sample.draw_zero true, Sample.chess)]
                  empty_store) in
  consume (platform := P) ViaResetPassword
    (Sample.env 2000 Sample.draw_zero true)
    (Sample.reset "a@x.com" "100000" "newsecret") s
  = ({| status := 404; body := Message false "Club not found" |}, s).
Proof. vm_compute. reflexivity. Qed.

(** C2 (amended).  A verify-otp or reset-password request that passes the
    validators is answered 400 "Invalid or expired OTP" exactly when no
    record with that email and code is in the store.  Neither route reads
    [issuedAt] or the clock: a matching record that is still in the store
    is accepted however long ago it was issued. *)
Theorem consume_rejects_only_absent_codes {platform : Platform}
    (via : Consumer) (env : Env) (req : Request) (s : Store) :
  consume_errors via req = [] ->
  (fst (consume via env req s) = invalid_or_expired
   <-> find (OTP.matches (req_email req) (req_otp req)) (otps s) = None)
  /\ (forall rec,
        In rec (otps s) ->
        otp_for rec = otp_email (req_email req) ->
        otp_code rec = req_otp req ->
        fst (consume via env req s) <> invalid_or_expired).
Proof.
  intros Herr.
  assert (Hiff : fst (consume via env req s) = invalid_or_expired
                 <-> find (OTP.matches (req_email req) (req_otp req)) (otps s)
                     = None).
  { split.
    - intros Hresp.
      destruct (find (OTP.matches (req_email req) (req_otp req)) (otps s))
        as [rec|] eqn:Hotp; [exfalso | reflexivity].
      destruct (find (Club.matches (account_filter via (req_email req)))
                  (clubs s)) as [c|] eqn:Hclub.
      + destruct (consume_found via env req s rec c Herr Hotp Hclub) as [Hst _].
        rewrite Hresp in Hst. discriminate.
      + rewrite (consume_no_account via env req s rec Herr Hotp Hclub) in Hresp.
        discriminate.
    - intros Hnone. now rewrite (consume_not_found via env req s Herr Hnone). }
  split; [exact Hiff|].
  intros rec Hin Hfor Hcode Hresp. apply Hiff in Hresp.
  rewrite find_none_all in Hresp. specialize (Hresp rec Hin).
  unfold OTP.matches in Hresp.
  rewrite Hfor, Hcode, !String.eqb_refl in Hresp. discriminate.
Qed.

Lemma consume_rejects_only_absent_codes_witness :
  let P := Sample.platform in
  let s := snd (run (platform := P)
                  [(Signup, Sample.env 0 Sample.draw_zero true, Sample.chess)]
                  empty_store) in
  let env := Sample.env (11 * Sample.minute) Sample.draw_zero true in
  let req := Sample.verify "a@x.com" "550000" in
  consume_errors (platform := P) ViaVerifyOtp req = []
  /\ (fst (consume (platform := P) ViaVerifyOtp env req s) = invalid_or_expired
      <-> find (OTP.matches (platform := P) (req_email req) (req_otp req))
            (otps s) = None).
Proof.
  intros P s env req.
  assert (H1 : consume_errors (platform := P) ViaVerifyOtp req = [])
    by (vm_compute; reflexivity).
  split; [exact H1|].
  exact (proj1 (consume_rejects_only_absent_codes (platform := P)
                  ViaVerifyOtp env req s H1)).
Defined.

(** C2 (as stated) fails.  A code issued at time 0 by a signup is accepted
    by verify-otp eleven minutes later; a code issued by forgot-password is
    accepted by reset-password eleven minutes later.  Nothing removed the
    records in between, and the routes do not look at their age. *)
Lemma expired_otp_still_consumed :
  let P := Sample.platform in
  let m := Sample.minute in
  let s1 := snd (run (platform := P)
                   [(Signup, Sample.env 0 Sample.draw_zero true, Sample.chess)]
                   empty_store) in
  let s2 := snd (run (platform := P)
                   [(Signup, Sample.env 0 Sample.draw_zero true, Sample.chess);
                    (VerifyOtp, Sample.env m Sample.draw_zero true,
                     Sample.verify "a@x.com" "100000");
                    (ForgotPassword, Sample.env (2 * m) Sample.draw_half true,
                     Sample.credentials "a@x.com" "")]
                   empty_store) in
  otps s1 = [{| otp_for := "a@x.com"; otp_code := "100000"; issuedAt := 0 |}]
  /\ 0 + 10 * m < 11 * m
  /\ status (fst (verify_otp (platform := P)
                    (Sample.env (11 * m) Sample.draw_zero true)
                    (Sample.verify "a@x.com" "100000") s1)) = 200
  /\ otps s2 = [{| otp_for := "a@x.com"; otp_code := "550000";
                   issuedAt := 2 * m |}]
  /\ 2 * m + 10 * m < 13 * m
  /\ fst (reset_password (platform := P)
            (Sample.env (13 * m) Sample.draw_zero true)
            (Sample.reset "a@x.com" "550000" "newsecret") s2)
     = {| status := 200;
          body := Message true
            "Password reset successfully. You can now login with your new password." |}.
Proof. vm_compute. repeat split; reflexivity. Qed.

(* ================================================================== *)
(** * Issuing a code *)
(* ================================================================== *)

Section IssueFacts.
Context {platform : Platform}.

Lemma isEmpty_false (errors : list string) :
  isEmpty errors = false -> errors <> [].
Proof. intros H ->. discriminate. Qed.

(** Signup, by cases: a verified account in the way; a unique index in the
    way; or the account and the code written, and then the dispatch. *)
Lemma signup_invalid env req s :
  signup_errors req <> [] ->
  signup env req s
  = ({| status := 400; body := Errors (signup_errors req) |}, s).
Proof.
  intros Herr. unfold signup, route, signup_body.
  destruct (signup_errors req); [congruence | reflexivity].
Qed.

Lemma signup_duplicate_active env req s c :
  signup_errors req = [] ->
  existing_club req s = Some c -> verified c = true ->
  signup env req s
  = ({| status := 400;
        body := Message false "Club with this email or name already exists" |},
     s).
Proof.
  intros Herr Hex Hv. unfold existing_club in Hex.
  unfold signup, route, signup_body. rewrite Herr. cbn [isEmpty negb].
  unfold bind, Club.findOne. rewrite Hex. cbn. rewrite Hv. reflexivity.
Qed.

Lemma signup_index_conflict env req s :
  signup_errors req = [] ->
  (forall c, existing_club req s = Some c -> verified c = false) ->
  Club.duplicate_key (registered env req (next_id s)) (reclaimed req s) = true ->
  signup env req s
  = ({| status := 500;
        body := Failure "Error during signup"
                  "E11000 duplicate key error collection" |},
     {| clubs := reclaimed req s; otps := otps s;
        next_id := S (next_id s) |}).
Proof.
  intros Herr Hun Hdup. unfold reclaimed, existing_club in *.
  unfold signup, route, signup_body. rewrite Herr. cbn [isEmpty negb].
  unfold bind, Club.findOne.
  destruct (find _ (clubs s)) as [c|] eqn:Hex; cbn.
  - rewrite (Hun c eq_refl). cbn.
    unfold Club.save, Club.pre_save. cbn.
    unfold Club.duplicate_key, registered in Hdup. cbn in Hdup.
    rewrite Hdup. reflexivity.
  - unfold Club.save, Club.pre_save. cbn.
    unfold Club.duplicate_key, registered in Hdup. cbn in Hdup.
    rewrite Hdup. reflexivity.
Qed.

Lemma signup_registers env req s :
  signup_errors req = [] ->
  (forall c, existing_club req s = Some c -> verified c = false) ->
  Club.duplicate_key (registered env req (next_id s)) (reclaimed req s) = false ->
  signup env req s
  = (if mail_ok env
     then {| status := 201;
             body := Sent "OTP sent to your email. Please verify within 10 minutes."
                       (req_email req) |}
     else {| status := 500;
             body := Failure "Error during signup" "Failed to send email" |},
     {| clubs := reclaimed req s ++ [registered env req (next_id s)];
        otps := otps s ++ [issued_otp env req];
        next_id := S (next_id s) |}).
Proof.
  intros Herr Hun Hdup. unfold reclaimed, existing_club in *.
  unfold signup, route, signup_body. rewrite Herr. cbn [isEmpty negb].
  unfold bind, Club.findOne.
  destruct (find _ (clubs s)) as [c|] eqn:Hex; cbn.
  - rewrite (Hun c eq_refl). cbn.
    unfold Club.save, Club.pre_save. cbn.
    unfold Club.duplicate_key, registered in Hdup. cbn in Hdup.
    rewrite Hdup. cbn.
    unfold sendOTPEmail. destruct (mail_ok env); reflexivity.
  - unfold Club.save, Club.pre_save. cbn.
    unfold Club.duplicate_key, registered in Hdup. cbn in Hdup.
    rewrite Hdup. cbn.
    unfold sendOTPEmail. destruct (mail_ok env); reflexivity.
Qed.

(** A signup answered with success went all the way. *)
Lemma signup_succeeded env req s :
  succeeded (fst (signup env req s)) ->
  signup_errors req = []
  /\ (forall c, existing_club req s = Some c -> verified c = false)
  /\ Club.duplicate_key (registered env req (next_id s)) (reclaimed req s)
     = false
  /\ mail_ok env = true.
Proof.
  unfold succeeded. intros Hs.
  destruct (signup_errors req) as [|e errs] eqn:Herr.
  2:{ rewrite signup_invalid in Hs by (rewrite Herr; discriminate).
      cbn in Hs. lia. }
  assert (Hun : forall c, existing_club req s = Some c -> verified c = false).
  { intros c Hex. destruct (verified c) eqn:Hv; [|reflexivity].
    rewrite (signup_duplicate_active env req s c Herr Hex Hv) in Hs.
    cbn in Hs. lia. }
  destruct (Club.duplicate_key (registered env req (next_id s))
              (reclaimed req s)) eqn:Hdup.
  { rewrite (signup_index_conflict env req s Herr Hun Hdup) in Hs.
    cbn in Hs. lia. }
  rewrite (signup_registers env req s Herr Hun Hdup) in Hs.
  destruct (mail_ok env); cbn in Hs; [|lia]. repeat split; assumption.
Qed.

Lemma reissue_writes c env req s d :
  c = ResendOtp \/ c = ForgotPassword ->
  reissue_errors c req = [] ->
  find (Club.matches (reissue_filter c (req_email req))) (clubs s) = Some d ->
  handle c env req s
  = (if mail_ok env
     then {| status := 200; body := Message true (reissue_done c) |}
     else {| status := 500;
             body := Failure (catch_message c) "Failed to send email" |},
     {| clubs := clubs s;
        otps := remove_all (OTP.issued_for (req_email req)) (otps s)
                ++ [issued_otp env req];
        next_id := next_id s |}).
Proof.
  intros [-> | ->] Herr Hfind; cbn [reissue_errors reissue_filter handle] in *;
    unfold resend_otp, forgot_password, route, resend_otp_body,
      forgot_password_body;
    rewrite Herr; cbn [isEmpty negb];
    unfold bind, Club.findOne; rewrite Hfind; cbn;
    unfold sendOTPEmail; destruct (mail_ok env); reflexivity.
Qed.

Lemma reissue_succeeded c env req s :
  c = ResendOtp \/ c = ForgotPassword ->
  succeeded (fst (handle c env req s)) ->
  reissue_errors c req = []
  /\ (exists d, find (Club.matches (reissue_filter c (req_email req)))
                  (clubs s) = Some d)
  /\ mail_ok env = true.
Proof.
  unfold succeeded.
  intros [-> | ->] Hs; cbn [reissue_errors reissue_filter handle] in *;
    unfold resend_otp, forgot_password, route, resend_otp_body,
      forgot_password_body in Hs.
  - destruct (resend_otp_errors req) eqn:Herr; cbn in Hs; [|lia].
    unfold bind, Club.findOne in Hs.
    destruct (find _ (clubs s)) as [d|] eqn:Hfind; cbn in Hs; [|lia].
    unfold sendOTPEmail in Hs. destruct (mail_ok env); cbn in Hs; [|lia].
    split; [reflexivity|]. split; [now exists d | reflexivity].
  - destruct (forgot_password_errors req) eqn:Herr; cbn in Hs; [|lia].
    unfold bind, Club.findOne in Hs.
    destruct (find _ (clubs s)) as [d|] eqn:Hfind; cbn in Hs; [|lia].
    unfold sendOTPEmail in Hs. destruct (mail_ok env); cbn in Hs; [|lia].
    split; [reflexivity|]. split; [now exists d | reflexivity].
Qed.

End IssueFacts.

(** C8.  For signup, resend-otp and forgot-password alike: whenever the
    call would have been answered with success had the mail transport
    accepted the message, the same call with a failing transport is
    answered 500 with the error "Failed to send email", and the store it
    leaves is the store of the successful call: the OTP record issued just
    before the dispatch is in it and, for signup, so is the account
    registered just before. *)
Theorem dispatch_failure_keeps_writes {platform : Platform}
    (c : Call) (env : Env) (req : Request) (s : Store)
    (r : Response) (s' : Store) :
  issues c = true ->
  handle c (with_mail true env) req s = (r, s') ->
  succeeded r ->
  handle c (with_mail false env) req s
  = ({| status := 500;
        body := Failure (catch_message c) "Failed to send email" |}, s')
  /\ In (issued_otp env req) (otps s')
  /\ (c = Signup -> In (registered env req (next_id s)) (clubs s')).
Proof.
  intros Hissues Hok Hsucc.
  assert (Hfst : succeeded (fst (handle c (with_mail true env) req s)))
    by (rewrite Hok; exact Hsucc).
  destruct c; try discriminate Hissues.
  - (* signup *)
    cbn [handle] in *.
    destruct (signup_succeeded _ _ _ Hfst) as [Herr [Hun [Hdup _]]].
    rewrite (signup_registers _ _ _ Herr Hun Hdup) in Hok.
    rewrite (signup_registers (with_mail false env) _ _ Herr Hun Hdup).
    cbn in Hok. injection Hok as <- <-. cbn.
    split; [reflexivity|]. split.
    + apply in_or_app. right. left. reflexivity.
    + intros _. apply in_or_app. right. left. reflexivity.
  - (* resend-otp *)
    destruct (reissue_succeeded ResendOtp _ _ _ (or_introl eq_refl) Hfst)
      as [Herr [[d Hd] _]].
    rewrite (reissue_writes ResendOtp _ _ _ d (or_introl eq_refl) Herr Hd) in Hok.
    rewrite (reissue_writes ResendOtp (with_mail false env) _ _ d
               (or_introl eq_refl) Herr Hd).
    cbn in Hok. injection Hok as <- <-. cbn.
    split; [reflexivity|]. split; [|discriminate].
    apply in_or_app. right. left. reflexivity.
  - (* forgot-password *)
    destruct (reissue_succeeded ForgotPassword _ _ _ (or_intror eq_refl) Hfst)
      as [Herr [[d Hd] _]].
    rewrite (reissue_writes ForgotPassword _ _ _ d (or_intror eq_refl) Herr Hd)
      in Hok.
    rewrite (reissue_writes ForgotPassword (with_mail false env) _ _ d
               (or_intror eq_refl) Herr Hd).
    cbn in Hok. injection Hok as <- <-. cbn.
    split; [reflexivity|]. split; [|discriminate].
    apply in_or_app. right. left. reflexivity.
Qed.

(** A signup whose e-mail is not delivered: the account and the code are
    in the store all the same. *)
Lemma dispatch_failure_keeps_writes_witness :
  let P := Sample.platform in
  let env := Sample.env 0 Sample.draw_zero false in
  let r := {| status := 201;
              body := Sent "OTP sent to your email. Please verify within 10 minutes."
                        "a@x.com" |} in
  let s' := {| clubs := [registered (platform := P) env Sample.chess 0];
               otps := [issued_otp (platform := P) env Sample.chess];
               next_id := 1 |} in
  issues Signup = true
  /\ handle (platform := P) Signup (with_mail true env) Sample.chess empty_store
     = (r, s')
  /\ succeeded r
  /\ handle (platform := P) Signup (with_mail false env) Sample.chess
       empty_store
     = ({| status := 500;
           body := Failure "Error during signup" "Failed to send email" |}, s')
  /\ In (issued_otp (platform := P) env Sample.chess) (otps s')
  /\ (Signup = Signup ->
      In (registered (platform := P) env Sample.chess (next_id empty_store))
        (clubs s')).
Proof.
  intros P env r s'.
  assert (H1 : issues Signup = true) by reflexivity.
  assert (H2 : handle (platform := P) Signup (with_mail true env) Sample.chess
                 empty_store = (r, s')) by (vm_compute; reflexivity).
  assert (H3 : succeeded r) by (unfold succeeded; cbn; lia).
  split; [exact H1|]. split; [exact H2|]. split; [exact H3|].
  exact (dispatch_failure_keeps_writes (platform := P) Signup env Sample.chess
           empty_store r s' H1 H2 H3).
Defined.

(** The same on resend-otp: the earlier code is gone, the new one stays. *)
Example resend_otp_undelivered :
  let P := Sample.platform in
  let s := snd (run (platform := P)
                  [(Signup, Sample.env 0 Sample.draw_zero true, Sample.chess)]
                  empty_store) in
  let after := resend_otp (platform := P)
                 (Sample.env 1000 Sample.draw_half false)
                 (Sample.credentials "a@x.com" "") s in
  fst after = {| status := 500;
                 body := Failure "Error resending OTP" "Failed to send email" |}
  /\ otps (snd after)
     = [{| otp_for := "a@x.com"; otp_code := "550000"; issuedAt := 1000 |}].
Proof. vm_compute. split; reflexivity. Qed.

(* ================================================================== *)
(** * Outstanding codes *)
(* ================================================================== *)

Section OutstandingFacts.
Context {platform : Platform}.

Lemma issued_for_own env req :
  OTP.issued_for (req_email req) (issued_otp env req) = true.
Proof. unfold OTP.issued_for, issued_otp. cbn. apply String.eqb_refl. Qed.

(** Resend-otp and forgot-password supersede: once they have written, the
    record they created is the only one for the email. *)
Lemma reissue_supersedes c env req s d :
  c = ResendOtp \/ c = ForgotPassword ->
  reissue_errors c req = [] ->
  find (Club.matches (reissue_filter c (req_email req))) (clubs s) = Some d ->
  outstanding (req_email req) (snd (handle c env req s)) = [issued_otp env req].
Proof.
  intros Hc Herr Hd. rewrite (reissue_writes c env req s d Hc Herr Hd).
  unfold outstanding. cbn [snd otps]. rewrite filter_app.
  rewrite filter_none.
  - cbn [filter app]. now rewrite issued_for_own.
  - intros x Hx. apply remove_all_In in Hx. tauto.
Qed.

(** Signup does not: the record it creates is added to whatever records
    the email already has. *)
Lemma signup_adds env req s :
  succeeded (fst (signup env req s)) ->
  outstanding (req_email req) (snd (signup env req s))
  = outstanding (req_email req) s ++ [issued_otp env req].
Proof.
  intros Hs. destruct (signup_succeeded env req s Hs) as [Herr [Hun [Hdup _]]].
  rewrite (signup_registers env req s Herr Hun Hdup).
  unfold outstanding. cbn [snd otps]. rewrite filter_app. cbn [filter].
  now rewrite issued_for_own.
Qed.

(** When the consumed record was the only one with that email and code,
    the same request is then refused. *)
Lemma consumed_once via env env' req s rec c :
  consume_errors via req = [] ->
  find (OTP.matches (req_email req) (req_otp req)) (otps s) = Some rec ->
  find (Club.matches (account_filter via (req_email req))) (clubs s) = Some c ->
  find (OTP.matches (req_email req) (req_otp req))
    (remove_first (OTP.matches (req_email req) (req_otp req)) (otps s)) = None ->
  fst (consume via env' req (snd (consume via env req s))) = invalid_or_expired.
Proof.
  intros Herr Hotp Hclub Hone.
  destruct (consume_found via env req s rec c Herr Hotp Hclub) as [_ Hotps].
  rewrite consume_not_found; [reflexivity | assumption |].
  now rewrite Hotps.
Qed.

End OutstandingFacts.

(** C1: what the code does.  A club signs up twice with the same email
    before verifying.  The second signup replaces the account but deletes
    no OTP record: two records are then outstanding for the email, and
    either code is accepted by verify-otp. *)
Theorem signup_twice_two_valid_codes :
  let P := Sample.platform in
  let s := snd (run (platform := P)
                  [(Signup, Sample.env 0 Sample.draw_zero true, Sample.chess);
                   (Signup, Sample.env 1000 Sample.draw_half true, Sample.chess)]
                  empty_store) in
  let late := Sample.env 2000 Sample.draw_zero true in
  outstanding (platform := P) "a@x.com" s
  = [{| otp_for := "a@x.com"; otp_code := "100000"; issuedAt := 0 |};
     {| otp_for := "a@x.com"; otp_code := "550000"; issuedAt := 1000 |}]
  /\ status (fst (verify_otp (platform := P) late
                    (Sample.verify "a@x.com" "100000") s)) = 200
  /\ status (fst (verify_otp (platform := P) late
                    (Sample.verify "a@x.com" "550000") s)) = 200.
Proof. vm_compute. repeat split; reflexivity. Qed.

(** C4: what the code does.  Two signups for the same email draw two
    different random values that make the same code, "550000"; verify-otp
    then succeeds twice with the same email and code, because each success
    deletes one of the two records. *)
Theorem same_code_consumed_twice :
  let P := Sample.platform in
  let req := Sample.verify "a@x.com" "550000" in
  Sample.draw_half <> Sample.draw_half_next
  /\ Float64.representable Sample.draw_half_next
  /\ generateOTP Sample.draw_half = generateOTP Sample.draw_half_next
  /\ map status
       (fst (run (platform := P)
               [(Signup, Sample.env 0 Sample.draw_half true, Sample.chess);
                (Signup, Sample.env 1000 Sample.draw_half_next true,
                 Sample.chess);
                (VerifyOtp, Sample.env 2000 Sample.draw_zero true, req);
                (VerifyOtp, Sample.env 3000 Sample.draw_zero true, req)]
               empty_store))
     = [201; 201; 200; 200].
Proof.
  split; [vm_compute; discriminate|].
  split; [split; [vm_compute; discriminate | vm_compute; reflexivity]|].
  split; vm_compute; reflexivity.
Qed.

(** C6: what the code does.  "Go Club" is a verified account.  A signup
    under that name with the email of an older, unverified account finds
    the unverified account first, deletes it, and only then fails on the
    unique index on [name]: the answer is 500, not 400, and an account is
    gone. *)
Theorem verified_name_signup_deletes_other :
  let P := Sample.platform in
  let before := snd (run (platform := P)
                  [(Signup, Sample.env 0 Sample.draw_zero true, Sample.chess);
                   (Signup, Sample.env 1000 Sample.draw_half true, Sample.go);
                   (VerifyOtp, Sample.env 2000 Sample.draw_zero true,
                    Sample.verify "b@x.com" "550000")]
                  empty_store) in
  let after := signup (platform := P) (Sample.env 3000 Sample.draw_zero true)
                 Sample.go_at_a before in
  map (fun c => (name c, email c, verified c)) (clubs before)
  = [("Chess Club", "a@x.com", false); ("Go Club", "b@x.com", true)]%string
  /\ fst after
     = {| status := 500;
          body := Failure "Error during signup"
                    "E11000 duplicate key error collection" |}
  /\ map (fun c => (name c, email c, verified c)) (clubs (snd after))
     = [("Go Club", "b@x.com", true)]%string.
Proof. vm_compute. repeat split; reflexivity. Qed.

(* ================================================================== *)
(** * Re-registration *)
(* ================================================================== *)

Section SignupFacts.
Context {platform : Platform}.

Lemma existsb_false {A} (p : A -> bool) (l : list A) :
  existsb p l = false <-> forall x, In x l -> p x = false.
Proof.
  induction l as [|y l IH]; cbn.
  - split; [intros _ x [] | reflexivity].
  - rewrite orb_false_iff, IH. split.
    + intros [Hy Hl] x [<- | Hx]; auto.
    + intros Hall. split; [apply Hall; now left|].
      intros x Hx. apply Hall. now right.
Qed.

(** With distinct ids, deleting by id leaves no document with that id. *)
Lemma remove_first_other_ids (l : list ClubDoc) (i : nat) (x : ClubDoc) :
  NoDup (map _id l) ->
  In x (remove_first (fun c => Nat.eqb (_id c) i) l) ->
  In x l /\ _id x <> i.
Proof.
  intros Hnd Hin. split; [eapply remove_first_In; eassumption|].
  induction l as [|y l IH]; [contradiction|].
  cbn in Hnd, Hin. inversion Hnd as [|? ? Hnotin Hnd']; subst.
  destruct (Nat.eqb_spec (_id y) i) as [E | NE].
  - intros Ex. apply Hnotin. rewrite E, <- Ex. now apply in_map.
  - destruct Hin as [<- | Hin]; [assumption | now apply IH].
Qed.

End SignupFacts.

(** C5 (amended).  In a store with distinct ids, when the account signup
    comes upon for the request's email or name is unverified and no other
    account has that email or that name, a signup that passes the
    validators replaces it: the old account is deleted (its id no longer
    resolves) and a new unverified account, under a fresh id and with the
    password hashed under this request's salt, is stored in its place.  The
    answer is 201 when the e-mail is delivered and 500 when it is not. *)
Theorem unverified_account_replaced {platform : Platform}
    (env : Env) (req : Request) (s : Store) (old : ClubDoc) :
  consistent s ->
  signup_errors req = [] ->
  existing_club req s = Some old ->
  verified old = false ->
  (forall c, In c (clubs s) -> _id c <> _id old ->
             Club.matches
               (EmailOrName (req_email req) (trim (req_name req))) c = false) ->
  fst (signup env req s)
  = (if mail_ok env
     then {| status := 201;
             body := Sent "OTP sent to your email. Please verify within 10 minutes."
                       (req_email req) |}
     else {| status := 500;
             body := Failure "Error during signup" "Failed to send email" |})
  /\ fst (Club.findById (_id old) (snd (signup env req s))) = Value None
  /\ clubs (snd (signup env req s))
     = remove_first (fun c => Nat.eqb (_id c) (_id old)) (clubs s)
       ++ [registered env req (next_id s)]
  /\ verified (registered env req (next_id s)) = false
  /\ password (registered env req (next_id s))
     = bcrypt_hash (req_password req) (salt env)
  /\ _id (registered env req (next_id s)) <> _id old.
Proof.
  intros Hs Herr Hex Hv Hothers.
  assert (Hold : In old (clubs s)) by (apply find_In in Hex; tauto).
  assert (Hfresh : (_id old < next_id s)%nat).
  { pose proof (ids_issued s Hs) as Hall. rewrite Forall_forall in Hall.
    exact (Hall old Hold). }
  assert (Hun : forall c, existing_club req s = Some c -> verified c = false).
  { intros c Hc. rewrite Hex in Hc. injection Hc as <-. exact Hv. }
  assert (Hrec : reclaimed req s
                 = remove_first (fun c => Nat.eqb (_id c) (_id old)) (clubs s)).
  { unfold reclaimed. now rewrite Hex. }
  assert (Hdup : Club.duplicate_key (registered env req (next_id s))
                   (reclaimed req s) = false).
  { unfold Club.duplicate_key. apply existsb_false. intros x Hx.
    rewrite Hrec in Hx.
    apply (remove_first_other_ids _ _ _ (ids_distinct s Hs)) in Hx
      as [Hx Hid].
    exact (Hothers x Hx Hid). }
  rewrite (signup_registers env req s Herr Hun Hdup), Hrec.
  cbn [fst snd clubs]. split; [reflexivity|]. split.
  - unfold Club.findById. cbn [fst clubs].
    replace (find (fun c => Nat.eqb (_id c) (_id old))
               (remove_first (fun c => Nat.eqb (_id c) (_id old)) (clubs s)
                ++ [registered env req (next_id s)])) with (@None ClubDoc);
      [reflexivity|].
    symmetry. apply find_none_all. intros x Hx.
    apply in_app_or in Hx as [Hx | [<- | []]].
    + apply (remove_first_other_ids _ _ _ (ids_distinct s Hs)) in Hx
        as [_ Hid].
      now apply Nat.eqb_neq.
    + cbn. apply Nat.eqb_neq. lia.
  - split; [reflexivity|]. split; [reflexivity|]. split; [reflexivity|].
    cbn. lia.
Qed.

(** The second signup of the same club, still unverified. *)
Lemma unverified_account_replaced_witness :
  let P := Sample.platform in
  let s := snd (run (platform := P)
                  [(Signup, Sample.env 0 Sample.draw_zero true, Sample.chess)]
                  empty_store) in
  let env := Sample.env 1000 Sample.draw_half true in
  let old := registered (platform := P)
               (Sample.env 0 Sample.draw_zero true) Sample.chess 0 in
  consistent s
  /\ signup_errors (platform := P) Sample.chess = []
  /\ existing_club (platform := P) Sample.chess s = Some old
  /\ verified old = false
  /\ fst (signup (platform := P) env Sample.chess s)
     = {| status := 201;
          body := Sent "OTP sent to your email. Please verify within 10 minutes."
                    "a@x.com" |}
  /\ fst (Club.findById (_id old) (snd (signup (platform := P) env Sample.chess s)))
     = Value None
  /\ clubs (snd (signup (platform := P) env Sample.chess s))
     = [registered (platform := P) env Sample.chess 1].
Proof.
  intros P s env old.
  assert (H1 : consistent s).
  { split; vm_compute.
    - constructor; [intros [] | constructor].
    - constructor; [lia | constructor].
    - constructor; [intros [] | constructor].
    - constructor; [intros [] | constructor]. }
  assert (H2 : signup_errors (platform := P) Sample.chess = [])
    by (vm_compute; reflexivity).
  assert (H4 : existing_club (platform := P) Sample.chess s = Some old)
    by (vm_compute; reflexivity).
  assert (H5 : verified old = false) by reflexivity.
  assert (H6 : forall c, In c (clubs s) -> _id c <> _id old ->
                 Club.matches (platform := P)
                   (EmailOrName (req_email Sample.chess)
                      (trim (req_name Sample.chess))) c = false).
  { intros c [<- | []] Hid. exfalso. apply Hid. reflexivity. }
  destruct (unverified_account_replaced (platform := P) env Sample.chess s old
              H1 H2 H4 H5 H6) as [R1 [R2 [R3 _]]].
  repeat (split; [assumption|]). exact R3.
Defined.

(** C5 (as stated) fails.  "Chess Club" is an unverified account.  A
    signup under that name with the email of the verified "Go Club" is
    answered 400 and replaces nothing: the verified account comes first.
    And a second signup of "Chess Club" itself whose e-mail is not
    delivered is answered 500, not 201. *)
Lemma unverified_signup_not_always_201 :
  let P := Sample.platform in
  let s1 := snd (run (platform := P)
                   [(Signup, Sample.env 0 Sample.draw_half true, Sample.go);
                    (VerifyOtp, Sample.env 1000 Sample.draw_zero true,
                     Sample.verify "b@x.com" "550000");
                    (Signup, Sample.env 2000 Sample.draw_zero true,
                     Sample.chess)]
                   empty_store) in
  let s2 := snd (run (platform := P)
                   [(Signup, Sample.env 0 Sample.draw_zero true, Sample.chess)]
                   empty_store) in
  map (fun c => (name c, email c, verified c)) (clubs s1)
  = [("Go Club", "b@x.com", true); ("Chess Club", "a@x.com", false)]%string
  /\ signup (platform := P) (Sample.env 3000 Sample.draw_zero true)
       Sample.chess_at_b s1
     = ({| status := 400;
           body := Message false
                     "Club with this email or name already exists" |}, s1)
  /\ map (fun c => (name c, email c, verified c)) (clubs s2)
     = [("Chess Club", "a@x.com", false)]%string
  /\ fst (signup (platform := P) (Sample.env 3000 Sample.draw_half false)
            Sample.chess s2)
     = {| status := 500;
          body := Failure "Error during signup" "Failed to send email" |}.
Proof. vm_compute. repeat split; reflexivity. Qed.

(** Two unverified accounts, one holding the email and the other the name
    of a signup: the first is deleted, and the unique index on [name] then
    refuses the new account. *)
Example signup_between_two_unverified :
  let P := Sample.platform in
  let s := snd (run (platform := P)
                  [(Signup, Sample.env 0 Sample.draw_zero true, Sample.chess);
                   (Signup, Sample.env 1000 Sample.draw_half true, Sample.go)]
                  empty_store) in
  let after := signup (platform := P) (Sample.env 2000 Sample.draw_zero true)
                 Sample.go_at_a s in
  map (fun c => (name c, email c, verified c)) (clubs s)
  = [("Chess Club", "a@x.com", false); ("Go Club", "b@x.com", false)]%string
  /\ fst after
     = {| status := 500;
          body := Failure "Error during signup"
                    "E11000 duplicate key error collection" |}
  /\ map (fun c => (name c, email c, verified c)) (clubs (snd after))
     = [("Go Club", "b@x.com", false)]%string.
Proof. vm_compute. repeat split; reflexivity. Qed.

(** An unverified account and the right password: 403 all the same. *)
Lemma login_unverified_refused_witness :
  let P := Sample.platform in
  let s := snd (run (platform := P)
                  [(Signup, Sample.env 0 Sample.draw_zero true, Sample.chess)]
                  empty_store) in
  let c := registered (platform := P)
             (Sample.env 0 Sample.draw_zero true) Sample.chess 0 in
  let env := Sample.env 1000 Sample.draw_zero true in
  let req := Sample.credentials "a@x.com" "secret1" in
  consistent s
  /\ In c (clubs s)
  /\ verified c = false
  /\ Club.cast_email (platform := P) (req_email req) = email c
  /\ Club.comparePassword (platform := P) (Club.loaded c) "secret1" = true
  /\ snd (login (platform := P) env req s) = s
  /\ status (fst (login (platform := P) env req s)) <> 200
  /\ (forall m t v,
        body (fst (login (platform := P) env req s)) <> Authenticated m t v)
  /\ (login_errors (platform := P) req = [] ->
      fst (login (platform := P) env req s)
      = {| status := 403;
           body := Message false "Please verify your email first" |}).
Proof.
  intros P s c env req.
  assert (H1 : consistent s).
  { split; vm_compute.
    - constructor; [intros [] | constructor].
    - constructor; [lia | constructor].
    - constructor; [intros [] | constructor].
    - constructor; [intros [] | constructor]. }
  assert (H2 : In c (clubs s)) by (left; vm_compute; reflexivity).
  assert (H3 : verified c = false) by reflexivity.
  assert (H4 : Club.cast_email (platform := P) (req_email req) = email c)
    by (vm_compute; reflexivity).
  split; [exact H1|]. split; [exact H2|]. split; [exact H3|].
  split; [exact H4|]. split; [vm_compute; reflexivity|].
  exact (login_unverified_refused (platform := P) env req s c H1 H2 H3 H4).
Defined.

(* ================================================================== *)
(** * The store stays consistent *)
(* ================================================================== *)

Section Consistency.
Context {platform : Platform}.

Lemma consistent_same (s s' : Store) :
  clubs s' = clubs s -> next_id s' = next_id s ->
  consistent s -> consistent s'.
Proof.
  intros Hc Hn [H1 H2 H3 H4]. split; rewrite ?Hc, ?Hn; assumption.
Qed.

Lemma NoDup_snoc {A} (l : list A) (x : A) :
  NoDup l -> ~ In x l -> NoDup (l ++ [x]).
Proof.
  induction l as [|y l IH]; cbn; intros Hnd Hx.
  - constructor; [intros [] | constructor].
  - inversion Hnd as [|? ? Hy Hnd']; subst. constructor.
    + intros Hin. apply in_app_or in Hin as [Hin | [-> | []]];
        [now apply Hy | apply Hx; now left].
    + apply IH; [assumption | intros Hin; apply Hx; now right].
Qed.

Lemma same_id_same_doc (l : list ClubDoc) (x y : ClubDoc) :
  NoDup (map _id l) -> In x l -> In y l -> _id x = _id y -> x = y.
Proof.
  induction l as [|z l IH]; [contradiction|].
  cbn. intros Hnd Hx Hy E. inversion Hnd as [|? ? Hz Hnd']; subst.
  destruct Hx as [-> | Hx], Hy as [-> | Hy]; [reflexivity | | |now apply IH].
  - exfalso. apply Hz. rewrite E. now apply in_map.
  - exfalso. apply Hz. rewrite <- E. now apply in_map.
Qed.

(** Writing a loaded document back changes no id, email or name. *)
Lemma replace_keeps {B} (f : ClubDoc -> B) (l : list ClubDoc) (c c' : ClubDoc) :
  NoDup (map _id l) -> In c l -> _id c' = _id c -> f c' = f c ->
  map f (Club.replace c' l) = map f l.
Proof.
  intros Hnd Hc Hid Hf. unfold Club.replace. rewrite map_map.
  apply map_ext_in. intros y Hy.
  destruct (Nat.eqb_spec (_id y) (_id c')) as [E | NE]; [|reflexivity].
  rewrite Hid in E.
  now rewrite Hf, (same_id_same_doc l y c Hnd Hy Hc E).
Qed.

Lemma consistent_replace (s : Store) (c c' : ClubDoc) (o : list OTPDoc) :
  consistent s -> In c (clubs s) ->
  _id c' = _id c -> email c' = email c -> name c' = name c ->
  consistent {| clubs := Club.replace c' (clubs s); otps := o;
                next_id := next_id s |}.
Proof.
  intros [H1 H2 H3 H4] Hc Hid He Hn. split; cbn [clubs next_id].
  - now rewrite (replace_keeps _id _ c c' H1 Hc Hid Hid).
  - rewrite Forall_forall in *. intros x Hx. unfold Club.replace in Hx.
    apply in_map_iff in Hx as [y [<- Hy]].
    destruct (Nat.eqb (_id y) (_id c')); [rewrite Hid|]; auto.
  - now rewrite (replace_keeps email _ c c' H1 Hc Hid He).
  - now rewrite (replace_keeps name _ c c' H1 Hc Hid Hn).
Qed.

Lemma consistent_reclaimed (s : Store) (req : Request) :
  consistent s ->
  consistent {| clubs := reclaimed req s; otps := otps s;
                next_id := S (next_id s) |}.
Proof.
  intros [H1 H2 H3 H4]. unfold reclaimed.
  destruct (existing_club req s) as [c|]; split; cbn [clubs next_id];
    try (now apply remove_first_map_NoDup); try assumption;
    rewrite Forall_forall in *; intros x Hx;
    try apply remove_first_In in Hx; specialize (H2 x Hx); lia.
Qed.

Lemma consistent_registered (s : Store) (env : Env) (req : Request)
    (o : list OTPDoc) :
  consistent s ->
  Club.duplicate_key (registered env req (next_id s)) (reclaimed req s)
  = false ->
  consistent {| clubs := reclaimed req s ++ [registered env req (next_id s)];
                otps := o; next_id := S (next_id s) |}.
Proof.
  intros Hs Hdup. pose proof (consistent_reclaimed s req Hs) as [H1 H2 H3 H4].
  cbn [clubs next_id] in *.
  unfold Club.duplicate_key in Hdup. rewrite existsb_false in Hdup.
  split; cbn [clubs next_id]; rewrite ?map_app; cbn [map].
  - apply NoDup_snoc; [assumption|]. intros Hin.
    apply in_map_iff in Hin as [x [Ex Hx]].
    assert (Hlt : In x (clubs s)).
    { unfold reclaimed in Hx. destruct (existing_club req s);
        [eapply remove_first_In; eassumption | assumption]. }
    pose proof (ids_issued s Hs) as Hall. rewrite Forall_forall in Hall.
    specialize (Hall x Hlt). cbn in Ex. lia.
  - apply Forall_app. split; [assumption|]. constructor; [cbn; lia | constructor].
  - apply NoDup_snoc; [assumption|]. intros Hin.
    apply in_map_iff in Hin as [x [Ex Hx]]. specialize (Hdup x Hx).
    apply orb_false_iff in Hdup as [He _]. rewrite Ex in He.
    now rewrite String.eqb_refl in He.
  - apply NoDup_snoc; [assumption|]. intros Hin.
    apply in_map_iff in Hin as [x [Ex Hx]]. specialize (Hdup x Hx).
    apply orb_false_iff in Hdup as [_ Hn]. rewrite Ex in Hn.
    now rewrite String.eqb_refl in Hn.
Qed.

Lemma signup_consistent env req s :
  consistent s -> consistent (snd (signup env req s)).
Proof.
  intros Hs.
  destruct (signup_errors req) as [|e errs] eqn:Herr.
  2:{ rewrite signup_invalid by (rewrite Herr; discriminate). exact Hs. }
  destruct (existing_club req s) as [c|] eqn:Hex.
  - destruct (verified c) eqn:Hv.
    { now rewrite (signup_duplicate_active env req s c Herr Hex Hv). }
    assert (Hun : forall c', existing_club req s = Some c' -> verified c' = false)
      by (intros c' Hc'; rewrite Hex in Hc'; injection Hc' as <-; exact Hv).
    destruct (Club.duplicate_key (registered env req (next_id s))
                (reclaimed req s)) eqn:Hdup.
    + rewrite (signup_index_conflict env req s Herr Hun Hdup).
      now apply consistent_reclaimed.
    + rewrite (signup_registers env req s Herr Hun Hdup).
      now apply consistent_registered.
  - assert (Hun : forall c', existing_club req s = Some c' -> verified c' = false)
      by (intros c' Hc'; rewrite Hex in Hc'; discriminate).
    destruct (Club.duplicate_key (registered env req (next_id s))
                (reclaimed req s)) eqn:Hdup.
    + rewrite (signup_index_conflict env req s Herr Hun Hdup).
      now apply consistent_reclaimed.
    + rewrite (signup_registers env req s Herr Hun Hdup).
      now apply consistent_registered.
Qed.

Lemma consume_invalid via env req s :
  consume_errors via req <> [] ->
  consume via env req s
  = ({| status := 400; body := Errors (consume_errors via req) |}, s).
Proof.
  intros Herr.
  destruct via; cbn [consume consume_errors] in *;
    unfold verify_otp, reset_password, route, verify_otp_body,
      reset_password_body.
  - destruct (verify_otp_errors req); [congruence | reflexivity].
  - destruct (reset_password_errors req); [congruence | reflexivity].
Qed.

Lemma consume_found_clubs via env req s rec c :
  consume_errors via req = [] ->
  find (OTP.matches (req_email req) (req_otp req)) (otps s) = Some rec ->
  find (Club.matches (account_filter via (req_email req))) (clubs s) = Some c ->
  exists c',
    clubs (snd (consume via env req s)) = Club.replace c' (clubs s)
    /\ next_id (snd (consume via env req s)) = next_id s
    /\ _id c' = _id c /\ email c' = email c /\ name c' = name c.
Proof.
  intros Herr Hotp Hclub.
  destruct via; cbn [consume consume_errors account_filter] in *;
    unfold verify_otp, reset_password, route, verify_otp_body,
      reset_password_body;
    rewrite Herr; cbn [isEmpty negb];
    unfold bind, OTP.findOne, Club.findOne; rewrite Hotp, Hclub; cbn.
  - eexists. split; [reflexivity|]. repeat split.
  - unfold Club.pre_save. cbn.
    destruct (negb (password c =? req_newPassword req)%string); cbn;
      eexists; (split; [reflexivity|]); repeat split.
Qed.

Lemma consume_consistent via env req s :
  consistent s -> consistent (snd (consume via env req s)).
Proof.
  intros Hs.
  destruct (consume_errors via req) as [|e errs] eqn:Herr.
  2:{ rewrite consume_invalid by (rewrite Herr; discriminate). exact Hs. }
  destruct (find (OTP.matches (req_email req) (req_otp req)) (otps s))
    as [rec|] eqn:Hotp.
  2:{ now rewrite (consume_not_found via env req s Herr Hotp). }
  destruct (find (Club.matches (account_filter via (req_email req))) (clubs s))
    as [c|] eqn:Hclub.
  2:{ now rewrite (consume_no_account via env req s rec Herr Hotp Hclub). }
  destruct (consume_found_clubs via env req s rec c Herr Hotp Hclub)
    as [c' [Hc [Hn [Hid [He Hname]]]]].
  apply find_In in Hclub as [Hin _].
  pose proof (consistent_replace s c c' (otps s) Hs Hin Hid He Hname) as Hr.
  eapply consistent_same; [| |exact Hr]; cbn; assumption.
Qed.

Lemma login_store env req s : snd (login env req s) = s.
Proof.
  unfold login, route, login_body.
  destruct (isEmpty (login_errors req)); cbn; [|reflexivity].
  unfold bind, Club.findOne.
  destruct (find _ (clubs s)) as [c|]; cbn; [|reflexivity].
  destruct (verified c); cbn; [|reflexivity].
  destruct (Club.comparePassword _ _); reflexivity.
Qed.

Lemma reissue_consistent c env req s :
  c = ResendOtp \/ c = ForgotPassword ->
  consistent s -> consistent (snd (handle c env req s)).
Proof.
  intros Hc Hs.
  destruct (reissue_errors c req) as [|e errs] eqn:Herr.
  - destruct (find (Club.matches (reissue_filter c (req_email req))) (clubs s))
      as [d|] eqn:Hd.
    + rewrite (reissue_writes c env req s d Hc Herr Hd).
      eapply consistent_same; [| |exact Hs]; reflexivity.
    + destruct Hc as [-> | ->]; cbn [reissue_errors reissue_filter handle] in *;
        unfold resend_otp, forgot_password, route, resend_otp_body,
          forgot_password_body;
        rewrite Herr; cbn [isEmpty negb];
        unfold bind, Club.findOne; rewrite Hd; exact Hs.
  - destruct Hc as [-> | ->]; cbn [reissue_errors handle] in *;
      unfold resend_otp, forgot_password, route, resend_otp_body,
        forgot_password_body;
      rewrite Herr; exact Hs.
Qed.

(** Every route keeps the store consistent, and so does every sequence of
    requests served from the empty store. *)
Lemma handle_consistent c env req s :
  consistent s -> consistent (snd (handle c env req s)).
Proof.
  intros Hs. destruct c.
  - now apply signup_consistent.
  - now apply (consume_consistent ViaVerifyOtp).
  - apply reissue_consistent; [now left | assumption].
  - cbn [handle]. now rewrite login_store.
  - apply reissue_consistent; [now right | assumption].
  - now apply (consume_consistent ViaResetPassword).
Qed.

Lemma empty_consistent : consistent empty_store.
Proof. split; cbn; constructor. Qed.

Lemma run_consistent calls s :
  consistent s -> consistent (snd (run calls s)).
Proof.
  revert s. induction calls as [|[[c env] req] calls IH]; intros s Hs;
    [exact Hs|].
  cbn [run]. pose proof (handle_consistent c env req s Hs) as Hs'.
  destruct (handle c env req s) as [r s']. cbn [snd] in Hs'.
  specialize (IH s' Hs'). destruct (run calls s') as [rs s'']. exact IH.
Qed.

End Consistency.

(* ================================================================== *)
(** * Passwords *)
(* ================================================================== *)

Section PasswordFacts.
Context {platform : Platform}.

(** The hook hashes a password once: a document read from the collection
    and saved with its password untouched keeps the stored hash. *)
Lemma pre_save_loaded env c : Club.pre_save env (Club.loaded c) = c.
Proof. reflexivity. Qed.

Lemma pre_save_verified env c v :
  password (Club.pre_save env (assign_verified (Club.loaded c) v)) = password c.
Proof. reflexivity. Qed.

(** A new password is stored as its hash under the request's salt. *)
Lemma pre_save_new_password env c p :
  password c <> p ->
  password (Club.pre_save env (assign_password (Club.loaded c) p))
  = bcrypt_hash p (salt env).
Proof.
  intros Hp. unfold Club.pre_save, assign_password. cbn.
  destruct (String.eqb_spec (password c) p) as [E | NE]; [contradiction|].
  reflexivity.
Qed.

(** For a verified account, login is decided by [bcrypt.compare] of the
    supplied password against the stored hash, and by nothing else. *)
Lemma login_verified env req s c :
  consistent s -> In c (clubs s) -> verified c = true ->
  Club.cast_email (req_email req) = email c ->
  login_errors req = [] ->
  status (fst (login env req s))
  = if bcrypt_compare (req_password req) (password c) then 200 else 401.
Proof.
  intros Hs Hin Hv He Herr.
  pose proof (find_by_email (clubs s) c (req_email req)
                (emails_distinct s Hs) Hin He) as Hfind.
  unfold login, route, login_body. rewrite Herr. cbn [isEmpty negb].
  unfold bind, Club.findOne. rewrite Hfind. cbn. rewrite Hv. cbn.
  unfold Club.comparePassword. cbn.
  destruct (bcrypt_compare (req_password req) (password c)); reflexivity.
Qed.

End PasswordFacts.

(* ================================================================== *)
(** * More on collections *)
(* ================================================================== *)

Section MoreCollections.
Context {A : Type}.

Lemma find_some_exists (p : A -> bool) l x :
  In x l -> p x = true -> exists y, find p l = Some y.
Proof.
  intros Hin Hp. destruct (find p l) as [y|] eqn:E; [now exists y|].
  rewrite find_none_all in E. rewrite (E x Hin) in Hp. discriminate.
Qed.

Lemma remove_first_keeps (p : A -> bool) l x :
  In x l -> p x = false -> In x (remove_first p l).
Proof.
  induction l as [|y l IH]; [contradiction|]. cbn. intros [-> | Hin] Hp.
  - rewrite Hp. now left.
  - destruct (p y); [assumption | right; now apply IH].
Qed.

Lemma remove_first_length (p : A -> bool) l x :
  find p l = Some x -> S (List.length (remove_first p l)) = List.length l.
Proof.
  induction l as [|y l IH]; cbn; [discriminate|].
  destruct (p y); [reflexivity|]. intros H. cbn. now rewrite (IH H).
Qed.

Lemma remove_first_none (p : A -> bool) l :
  find p l = None -> remove_first p l = l.
Proof.
  induction l as [|y l IH]; cbn; [reflexivity|].
  destruct (p y); [discriminate|]. intros H. now rewrite (IH H).
Qed.

(** With distinct keys, two documents of a collection that agree on the
    key are one document. *)
Lemma same_key_same_doc {B} (f : A -> B) l x y :
  NoDup (map f l) -> In x l -> In y l -> f x = f y -> x = y.
Proof.
  induction l as [|z l IH]; [contradiction|].
  cbn. intros Hnd Hx Hy E. inversion Hnd as [|? ? Hz Hnd']; subst.
  destruct Hx as [-> | Hx], Hy as [-> | Hy]; [reflexivity | | |now apply IH].
  - exfalso. apply Hz. rewrite E. now apply in_map.
  - exfalso. apply Hz. rewrite <- E. now apply in_map.
Qed.

End MoreCollections.

Section Documents.
Context {platform : Platform}.

Lemma find_by_id (l : list ClubDoc) (c : ClubDoc) :
  NoDup (map _id l) -> In c l ->
  find (fun d => Nat.eqb (_id d) (_id c)) l = Some c.
Proof.
  intros Hnd Hin.
  destruct (find_some_exists (fun d => Nat.eqb (_id d) (_id c)) l c Hin
              (Nat.eqb_refl _)) as [y Hy].
  rewrite Hy. f_equal. apply find_In in Hy as [Hyin Hyid].
  apply Nat.eqb_eq in Hyid.
  exact (same_key_same_doc _id l y c Hnd Hyin Hin Hyid).
Qed.

Lemma resolve_find (id : nat) (s : Store) :
  resolve id s = find (fun d => Nat.eqb (_id d) id) (clubs s).
Proof.
  unfold resolve, Club.findById. cbn.
  now destruct (find _ (clubs s)).
Qed.

Lemma resolve_In (s : Store) (c : ClubDoc) :
  consistent s -> In c (clubs s) -> resolve (_id c) s = Some c.
Proof.
  intros Hs Hin. rewrite resolve_find.
  apply find_by_id; [apply (ids_distinct s Hs) | assumption].
Qed.

(** Writing a document back: the id then resolves to the new version, and
    the documents under other ids are the ones that were there. *)
Lemma find_replace (l : list ClubDoc) (c c' : ClubDoc) :
  In c l -> _id c' = _id c ->
  find (fun d => Nat.eqb (_id d) (_id c)) (Club.replace c' l) = Some c'.
Proof.
  intros Hin Hid. induction l as [|y l IH]; [contradiction|].
  cbn. rewrite Hid.
  destruct (Nat.eqb_spec (_id y) (_id c)) as [E | NE].
  - now rewrite Hid, Nat.eqb_refl.
  - apply Nat.eqb_neq in NE. rewrite NE.
    destruct Hin as [-> | Hin]; [now rewrite Nat.eqb_refl in NE|].
    rewrite <- Hid. rewrite Hid. apply IH in Hin.
    unfold Club.replace in Hin. now rewrite Hid in Hin.
Qed.

Lemma in_replace_other (l : list ClubDoc) (c' d : ClubDoc) :
  In d l -> _id d <> _id c' -> In d (Club.replace c' l).
Proof.
  intros Hin Hid. unfold Club.replace. apply in_map_iff. exists d.
  split; [|assumption]. apply Nat.eqb_neq in Hid. now rewrite Hid.
Qed.

Lemma in_replace_inv (l : list ClubDoc) (c' d : ClubDoc) :
  In d (Club.replace c' l) ->
  (d = c' /\ exists y, In y l /\ _id y = _id c') \/ In d l.
Proof.
  unfold Club.replace. intros Hin. apply in_map_iff in Hin as [y [E Hy]].
  destruct (Nat.eqb_spec (_id y) (_id c')) as [Eid | NE].
  - left. split; [now symmetry | now exists y].
  - right. now subst.
Qed.

End Documents.

(* ================================================================== *)
(** * Requests that do not pass the validators *)
(* ================================================================== *)

(** X1.  Whatever the route, a request that fails a validator is answered
    400 with the list of messages, and nothing is written. *)
Theorem invalid_request_changes_nothing {platform : Platform}
    (c : Call) (env : Env) (req : Request) (s : Store) :
  errors_of c req <> [] ->
  handle c env req s
  = ({| status := 400; body := Errors (errors_of c req) |}, s).
Proof.
  intros Herr.
  destruct c; cbn [errors_of handle] in *;
    unfold signup, verify_otp, resend_otp, login, forgot_password,
      reset_password, route, signup_body, verify_otp_body, resend_otp_body,
      login_body, forgot_password_body, reset_password_body;
    match goal with
    | |- context [isEmpty ?e] => destruct e; [congruence | reflexivity]
    end.
Qed.

(** A signup with a five-letter password. *)
Lemma invalid_request_changes_nothing_witness :
  let P := Sample.platform in
  let req := Sample.request "Chess Club" "Weekly games" "a@x.com" "short"
               "" "" in
  errors_of (platform := P) Signup req <> []
  /\ handle (platform := P) Signup (Sample.env 0 Sample.draw_zero true) req
       Cases.two_clubs
     = ({| status := 400;
           body := Errors ["Password must be at least 6 characters"%string] |},
        Cases.two_clubs).
Proof.
  intros P req.
  assert (H1 : errors_of (platform := P) Signup req <> [])
    by (vm_compute; discriminate).
  split; [exact H1|].
  exact (invalid_request_changes_nothing (platform := P) Signup
           (Sample.env 0 Sample.draw_zero true) req Cases.two_clubs H1).
Defined.

(* ================================================================== *)
(** * What the club routes write *)
(* ================================================================== *)

Section ClubRouteFacts.
Context {platform : Platform}.

Lemma delete_account_unknown clubId s :
  resolve clubId s = None ->
  delete_account clubId s
  = ({| status := 404; body := Message false "Club not found" |}, s).
Proof.
  rewrite resolve_find. intros Hnone.
  unfold delete_account, route, delete_account_body, bind, Club.findById.
  now rewrite Hnone.
Qed.

Lemma delete_account_known clubId s c :
  resolve clubId s = Some c ->
  delete_account clubId s
  = ({| status := 200;
        body := Message true
          "Club account deleted successfully. All associated data has been removed." |},
     {| clubs := remove_first (fun d => Nat.eqb (_id d) clubId) (clubs s);
        otps := otps s; next_id := next_id s |}).
Proof.
  rewrite resolve_find. intros Hsome.
  unfold delete_account, route, delete_account_body, bind, Club.findById.
  now rewrite Hsome.
Qed.

Lemma update_profile_invalid clubId req s :
  update_profile_errors req <> [] ->
  update_profile clubId req s
  = ({| answer_status := 400;
        answer_body := Basic (Errors (update_profile_errors req)) |}, s).
Proof.
  intros Herr. unfold update_profile.
  destruct (update_profile_errors req); [congruence | reflexivity].
Qed.

Lemma update_profile_unknown clubId req s :
  update_profile_errors req = [] -> resolve clubId s = None ->
  update_profile clubId req s
  = ({| answer_status := 404;
        answer_body := Basic (Message false "Club not found") |}, s).
Proof.
  intros Herr Hnone. unfold update_profile, findByIdAndUpdate_description.
  now rewrite Herr, Hnone.
Qed.

Lemma update_profile_known clubId req s c :
  update_profile_errors req = [] -> resolve clubId s = Some c ->
  update_profile clubId req s
  = ({| answer_status := 200;
        answer_body :=
          OneClubSaid "Profile updated successfully"
            (without_password
               (set_description c (trim (req_description req)))) |},
     {| clubs := Club.replace
                   (set_description c (trim (req_description req))) (clubs s);
        otps := otps s; next_id := next_id s |}).
Proof.
  intros Herr Hsome. unfold update_profile, findByIdAndUpdate_description.
  now rewrite Herr, Hsome.
Qed.

Lemma consistent_remove (s : Store) (p : ClubDoc -> bool) :
  consistent s ->
  consistent {| clubs := remove_first p (clubs s); otps := otps s;
                next_id := next_id s |}.
Proof.
  intros [H1 H2 H3 H4]. split; cbn [clubs next_id];
    try (now apply remove_first_map_NoDup).
  rewrite Forall_forall in *. intros x Hx.
  apply remove_first_In in Hx. auto.
Qed.

Lemma delete_account_consistent clubId s :
  consistent s -> consistent (snd (delete_account clubId s)).
Proof.
  intros Hs. destruct (resolve clubId s) as [c|] eqn:Hres.
  - rewrite (delete_account_known clubId s c Hres). now apply consistent_remove.
  - now rewrite (delete_account_unknown clubId s Hres).
Qed.

Lemma update_profile_consistent clubId req s :
  consistent s -> consistent (snd (update_profile clubId req s)).
Proof.
  intros Hs.
  destruct (update_profile_errors req) as [|e errs] eqn:Herr.
  2:{ rewrite update_profile_invalid by (rewrite Herr; discriminate).
      exact Hs. }
  destruct (resolve clubId s) as [c|] eqn:Hres.
  - rewrite (update_profile_known clubId req s c Herr Hres). cbn [snd].
    rewrite resolve_find in Hres. apply find_In in Hres as [Hin _].
    now apply (consistent_replace s c).
  - now rewrite (update_profile_unknown clubId req s Herr Hres).
Qed.

Lemma perform_consistent op s : consistent s -> consistent (perform op s).
Proof.
  intros Hs. destruct op as [c env req | clubId req | clubId]; cbn [perform].
  - now apply handle_consistent.
  - now apply update_profile_consistent.
  - now apply delete_account_consistent.
Qed.

End ClubRouteFacts.

(** X2.  The unique indexes hold at all times: after any sequence of
    requests to the six auth routes, to PUT /profile and to DELETE
    /delete-account, served from empty collections, no two accounts share
    an id, an email or a name, and every id in use is older than the next
    fresh one. *)
Theorem served_store_consistent {platform : Platform} (ops : list Operation) :
  consistent (serve ops empty_store).
Proof.
  assert (H : forall s, consistent s -> consistent (serve ops s)).
  { induction ops as [|op ops IH]; intros s Hs; [exact Hs|].
    cbn [serve]. apply IH. now apply perform_consistent. }
  apply H. apply empty_consistent.
Qed.

(* ================================================================== *)
(** * The life of an account *)
(* ================================================================== *)

Section Lifecycle.
Context {platform : Platform}.

(** What a route leaves in the [clubs] collection. *)
Lemma signup_clubs env req s :
  clubs (snd (signup env req s)) = clubs s
  \/ ((forall c, existing_club req s = Some c -> verified c = false)
      /\ (clubs (snd (signup env req s)) = reclaimed req s
          \/ clubs (snd (signup env req s))
             = reclaimed req s ++ [registered env req (next_id s)])).
Proof.
  destruct (signup_errors req) as [|e errs] eqn:Herr.
  2:{ left. now rewrite signup_invalid by (rewrite Herr; discriminate). }
  assert (Hcase : (exists c, existing_club req s = Some c /\ verified c = true)
                  \/ forall c, existing_club req s = Some c -> verified c = false).
  { destruct (existing_club req s) as [c|]; [|right; discriminate].
    destruct (verified c) eqn:Hv; [left; now exists c|].
    right. intros c' Hc'. now injection Hc' as <-. }
  destruct Hcase as [[c [Hex Hv]] | Hun].
  { left. now rewrite (signup_duplicate_active env req s c Herr Hex Hv). }
  right. split; [exact Hun|].
  destruct (Club.duplicate_key (registered env req (next_id s))
              (reclaimed req s)) eqn:Hdup.
  - left. now rewrite (signup_index_conflict env req s Herr Hun Hdup).
  - right. now rewrite (signup_registers env req s Herr Hun Hdup).
Qed.

Lemma consume_clubs via env req s :
  clubs (snd (consume via env req s)) = clubs s
  \/ exists c c',
       In c (clubs s)
       /\ clubs (snd (consume via env req s)) = Club.replace c' (clubs s)
       /\ _id c' = _id c /\ email c' = email c /\ name c' = name c
       /\ verified c' = true
       /\ (via = ViaResetPassword -> verified c = true).
Proof.
  destruct (consume_errors via req) as [|e errs] eqn:Herr.
  2:{ left. now rewrite consume_invalid by (rewrite Herr; discriminate). }
  destruct (find (OTP.matches (req_email req) (req_otp req)) (otps s))
    as [rec|] eqn:Hotp.
  2:{ left. now rewrite (consume_not_found via env req s Herr Hotp). }
  destruct (find (Club.matches (account_filter via (req_email req))) (clubs s))
    as [c|] eqn:Hclub.
  2:{ left. now rewrite (consume_no_account via env req s rec Herr Hotp Hclub). }
  right. exists c. pose proof (find_In _ _ _ Hclub) as [Hin Hm].
  destruct via; cbn [consume consume_errors account_filter] in *;
    unfold verify_otp, reset_password, route, verify_otp_body,
      reset_password_body;
    rewrite Herr; cbn [isEmpty negb];
    unfold bind, OTP.findOne, Club.findOne; rewrite Hotp, Hclub; cbn.
  - eexists. split; [exact Hin|]. split; [reflexivity|].
    repeat split. discriminate.
  - cbn in Hm. apply andb_true_iff in Hm as [_ Hv]. apply eqb_prop in Hv.
    unfold Club.pre_save. cbn.
    destruct (negb (password c =? req_newPassword req)%string); cbn;
      eexists; (split; [exact Hin|]); (split; [reflexivity|]);
      repeat split; try reflexivity; try assumption; intros _; assumption.
Qed.

Lemma reissue_clubs c env req s :
  c = ResendOtp \/ c = ForgotPassword ->
  clubs (snd (handle c env req s)) = clubs s.
Proof.
  intros Hc.
  destruct (reissue_errors c req) as [|e errs] eqn:Herr.
  - destruct (find (Club.matches (reissue_filter c (req_email req))) (clubs s))
      as [d|] eqn:Hd.
    + now rewrite (reissue_writes c env req s d Hc Herr Hd).
    + destruct Hc as [-> | ->]; cbn [reissue_errors reissue_filter handle] in *;
        unfold resend_otp, forgot_password, route, resend_otp_body,
          forgot_password_body;
        rewrite Herr; cbn [isEmpty negb];
        unfold bind, Club.findOne; now rewrite Hd.
  - destruct Hc as [-> | ->]; cbn [reissue_errors handle] in *;
      unfold resend_otp, forgot_password, route, resend_otp_body,
        forgot_password_body;
      now rewrite Herr.
Qed.

Lemma reclaimed_In req s x : In x (reclaimed req s) -> In x (clubs s).
Proof.
  unfold reclaimed. destruct (existing_club req s); [|auto].
  apply remove_first_In.
Qed.

(** A verified account is not the one signup reclaims. *)
Lemma reclaimed_keeps_verified req s d :
  consistent s ->
  (forall c, existing_club req s = Some c -> verified c = false) ->
  In d (clubs s) -> verified d = true -> In d (reclaimed req s).
Proof.
  intros Hs Hun Hin Hv. unfold reclaimed.
  destruct (existing_club req s) as [c|] eqn:Hex; [|exact Hin].
  pose proof (Hun c eq_refl) as Hc.
  apply remove_first_keeps; [exact Hin|]. apply Nat.eqb_neq. intros Eid.
  unfold existing_club in Hex. apply find_In in Hex as [Hcin _].
  pose proof (same_key_same_doc _id (clubs s) d c (ids_distinct s Hs)
                Hin Hcin Eid) as E.
  rewrite E in Hv. congruence.
Qed.

End Lifecycle.

Section LifecycleSteps.
Context {platform : Platform}.

Lemma in_replace_same (l : list ClubDoc) (c c' : ClubDoc) :
  In c l -> _id c' = _id c -> In c' (Club.replace c' l).
Proof.
  intros Hin Hid. unfold Club.replace. apply in_map_iff. exists c.
  split; [|assumption]. now rewrite Hid, Nat.eqb_refl.
Qed.

Lemma replace_keeps_account (s : Store) (c c' d : ClubDoc) :
  consistent s -> In c (clubs s) ->
  _id c' = _id c -> email c' = email c -> name c' = name c ->
  (verified c = true -> verified c' = true) ->
  In d (clubs s) -> verified d = true ->
  exists d', In d' (Club.replace c' (clubs s))
             /\ _id d' = _id d /\ email d' = email d /\ name d' = name d
             /\ verified d' = true.
Proof.
  intros Hs Hc Hid He Hn Hv Hd Hdv.
  destruct (Nat.eq_dec (_id d) (_id c)) as [E | NE].
  - pose proof (same_key_same_doc _id (clubs s) d c (ids_distinct s Hs)
                  Hd Hc E) as ->.
    exists c'. split; [now apply (in_replace_same _ c)|]. auto.
  - exists d. split; [apply in_replace_other; [assumption | congruence]|].
    auto.
Qed.

End LifecycleSteps.

Lemma two_clubs_consistent : consistent Cases.two_clubs.
Proof.
  split; vm_compute.
  - constructor; [intros [H | []]; discriminate|].
    constructor; [intros [] | constructor].
  - repeat constructor.
  - constructor; [intros [H | []]; discriminate|].
    constructor; [intros [] | constructor].
  - constructor; [intros [H | []]; discriminate|].
    constructor; [intros [] | constructor].
Qed.

(** X3.  Once verified, always there: no request to an auth route and no
    profile update removes a verified account, unverifies it, or changes
    its id, email or name.  Only DELETE /delete-account under its own id
    takes it away. *)
Theorem verified_account_stays {platform : Platform}
    (op : Operation) (s : Store) (d : ClubDoc) :
  consistent s -> In d (clubs s) -> verified d = true ->
  op <> DeleteAccount (_id d) ->
  exists d', In d' (clubs (perform op s))
             /\ _id d' = _id d /\ email d' = email d /\ name d' = name d
             /\ verified d' = true.
Proof.
  intros Hs Hd Hv Hop.
  assert (Hsame : forall l, l = clubs s ->
            exists d', In d' l /\ _id d' = _id d /\ email d' = email d
                       /\ name d' = name d /\ verified d' = true).
  { intros l ->. exists d. auto. }
  assert (Hvia : forall via env req,
            exists d', In d' (clubs (snd (consume via env req s)))
                       /\ _id d' = _id d /\ email d' = email d
                       /\ name d' = name d /\ verified d' = true).
  { intros via env req.
    destruct (consume_clubs via env req s)
      as [E | [c [c' [Hc [E [Hid [He [Hn [Hcv _]]]]]]]]];
      [now apply Hsame|].
    rewrite E. apply (replace_keeps_account s c c' d); auto. }
  destruct op as [c env req | clubId req | clubId]; cbn [perform].
  - destruct c; cbn [handle].
    + destruct (signup_clubs env req s) as [E | [Hun [E | E]]];
        [now apply Hsame | |]; rewrite E.
      * exists d. split; [now apply reclaimed_keeps_verified | auto].
      * exists d. split; [|auto]. apply in_or_app. left.
        now apply reclaimed_keeps_verified.
    + apply (Hvia ViaVerifyOtp).
    + apply Hsame. apply (reissue_clubs ResendOtp). now left.
    + apply Hsame. now rewrite login_store.
    + apply Hsame. apply (reissue_clubs ForgotPassword). now right.
    + apply (Hvia ViaResetPassword).
  - destruct (update_profile_errors req) as [|e errs] eqn:Herr.
    2:{ apply Hsame.
        now rewrite update_profile_invalid by (rewrite Herr; discriminate). }
    destruct (resolve clubId s) as [c|] eqn:Hres.
    2:{ apply Hsame. now rewrite (update_profile_unknown clubId req s Herr Hres). }
    rewrite (update_profile_known clubId req s c Herr Hres). cbn [snd clubs].
    rewrite resolve_find in Hres. apply find_In in Hres as [Hc _].
    apply (replace_keeps_account s c _ d); auto.
  - destruct (resolve clubId s) as [c|] eqn:Hres.
    2:{ apply Hsame. now rewrite (delete_account_unknown clubId s Hres). }
    rewrite (delete_account_known clubId s c Hres). cbn [snd clubs].
    exists d. split; [|auto]. apply remove_first_keeps; [assumption|].
    apply Nat.eqb_neq. intros E. apply Hop. now rewrite E.
Qed.

(** "Go Club" survives a signup that wants its name. *)
Lemma verified_account_stays_witness :
  let P := Sample.platform in
  let s := Cases.two_clubs in
  let d := set_verified
             (registered (platform := P)
                (Sample.env 0 Sample.draw_half true) Sample.go 0) true in
  let op := Auth Signup (Sample.env 3000 Sample.draw_zero true)
              Sample.go_at_a in
  consistent s
  /\ In d (clubs s)
  /\ verified d = true
  /\ op <> DeleteAccount (_id d)
  /\ exists d', In d' (clubs (perform (platform := P) op s))
                /\ _id d' = _id d /\ email d' = email d /\ name d' = name d
                /\ verified d' = true.
Proof.
  intros P s d op.
  assert (H1 : consistent s) by exact two_clubs_consistent.
  assert (H2 : In d (clubs s)) by (vm_compute; left; reflexivity).
  assert (H3 : verified d = true) by reflexivity.
  assert (H4 : op <> DeleteAccount (_id d)) by discriminate.
  split; [exact H1|]. split; [exact H2|]. split; [exact H3|].
  split; [exact H4|].
  exact (verified_account_stays (platform := P) op s d H1 H2 H3 H4).
Defined.

(** X4.  Verification is granted by verify-otp and by nothing else: an
    account that is verified after a request was verified before it,
    unless the request was a verify-otp. *)
Theorem verified_only_by_verify_otp {platform : Platform}
    (op : Operation) (s : Store) (d : ClubDoc) :
  In d (clubs (perform op s)) -> verified d = true ->
  (exists d0, In d0 (clubs s) /\ _id d0 = _id d /\ verified d0 = true)
  \/ exists env req, op = Auth VerifyOtp env req.
Proof.
  intros Hd Hv.
  assert (Hsame : clubs (perform op s) = clubs s ->
            exists d0, In d0 (clubs s) /\ _id d0 = _id d /\ verified d0 = true).
  { intros E. rewrite E in Hd. exists d. auto. }
  assert (Hsub : (forall x, In x (clubs (perform op s)) -> In x (clubs s)) ->
            exists d0, In d0 (clubs s) /\ _id d0 = _id d /\ verified d0 = true).
  { intros Hall. exists d. auto. }
  destruct op as [c env req | clubId req | clubId]; cbn [perform] in *.
  - destruct c; cbn [handle] in *.
    + left. destruct (signup_clubs env req s) as [E | [_ [E | E]]].
      * now apply Hsame.
      * apply Hsub. intros x Hx. rewrite E in Hx.
        now apply (reclaimed_In req).
      * rewrite E in Hd. apply in_app_or in Hd as [Hd | [<- | []]].
        -- exists d. split; [now apply (reclaimed_In req) | auto].
        -- discriminate Hv.
    + right. now exists env, req.
    + left. apply Hsame. apply (reissue_clubs ResendOtp). now left.
    + left. apply Hsame. now rewrite login_store.
    + left. apply Hsame. apply (reissue_clubs ForgotPassword). now right.
    + left. destruct (consume_clubs ViaResetPassword env req s)
        as [E | [c [c' [Hc [E [Hid [_ [_ [_ Hcv]]]]]]]]];
        [now apply Hsame|].
      cbn [consume] in E. rewrite E in Hd.
      apply in_replace_inv in Hd as [[-> _] | Hd]; [|exists d; auto].
      exists c. split; [assumption|]. split; [now symmetry | now apply Hcv].
  - left. destruct (update_profile_errors req) as [|e errs] eqn:Herr.
    2:{ apply Hsame.
        now rewrite update_profile_invalid by (rewrite Herr; discriminate). }
    destruct (resolve clubId s) as [c|] eqn:Hres.
    2:{ apply Hsame. now rewrite (update_profile_unknown clubId req s Herr Hres). }
    rewrite (update_profile_known clubId req s c Herr Hres) in Hd.
    cbn [snd clubs] in Hd.
    rewrite resolve_find in Hres. apply find_In in Hres as [Hc _].
    apply in_replace_inv in Hd as [[-> _] | Hd]; [|exists d; auto].
    exists c. auto.
  - left. destruct (resolve clubId s) as [c|] eqn:Hres.
    2:{ apply Hsame. now rewrite (delete_account_unknown clubId s Hres). }
    rewrite (delete_account_known clubId s c Hres) in Hd. cbn [snd clubs] in Hd.
    exists d. split; [eapply remove_first_In; eassumption | auto].
Qed.

(** After the verify-otp of "Go Club", "Go Club" is verified. *)
Lemma verified_only_by_verify_otp_witness :
  let P := Sample.platform in
  let s := snd (run (platform := P)
                  [(Signup, Sample.env 0 Sample.draw_half true, Sample.go)]
                  empty_store) in
  let op := Auth VerifyOtp (Sample.env 1000 Sample.draw_zero true)
              (Sample.verify "b@x.com" "550000") in
  let d := set_verified
             (registered (platform := P)
                (Sample.env 0 Sample.draw_half true) Sample.go 0) true in
  In d (clubs (perform (platform := P) op s))
  /\ verified d = true
  /\ ((exists d0, In d0 (clubs s) /\ _id d0 = _id d /\ verified d0 = true)
      \/ exists env req, op = Auth VerifyOtp env req).
Proof.
  intros P s op d.
  assert (H1 : In d (clubs (perform (platform := P) op s)))
    by (vm_compute; left; reflexivity).
  assert (H2 : verified d = true) by reflexivity.
  split; [exact H1|]. split; [exact H2|].
  exact (verified_only_by_verify_otp (platform := P) op s d H1 H2).
Defined.

(* ================================================================== *)
(** * Verifying an account *)
(* ================================================================== *)

Section VerifyFacts.
Context {platform : Platform}.

Lemma verify_otp_found env req s rec c :
  verify_otp_errors req = [] ->
  find (OTP.matches (req_email req) (req_otp req)) (otps s) = Some rec ->
  find (Club.matches (Email (req_email req))) (clubs s) = Some c ->
  verify_otp env req s
  = ({| status := 200;
        body := Authenticated "Email verified successfully"
                  (jwt_sign (_id c) (now env)) (view_of c) |},
     {| clubs := Club.replace (set_verified c true) (clubs s);
        otps := remove_first (OTP.matches (req_email req) (req_otp req))
                  (otps s);
        next_id := next_id s |}).
Proof.
  intros Herr Hotp Hclub.
  unfold verify_otp, route, verify_otp_body. rewrite Herr. cbn [isEmpty negb].
  unfold bind, OTP.findOne, Club.findOne. rewrite Hotp, Hclub. reflexivity.
Qed.

Lemma reset_password_found env req s rec c :
  reset_password_errors req = [] ->
  find (OTP.matches (req_email req) (req_otp req)) (otps s) = Some rec ->
  find (Club.matches (EmailVerified (req_email req) true)) (clubs s) = Some c ->
  reset_password env req s
  = ({| status := 200;
        body := Message true
          "Password reset successfully. You can now login with your new password." |},
     {| clubs := Club.replace
                   (set_password c
                      (if String.eqb (password c) (req_newPassword req)
                       then req_newPassword req
                       else bcrypt_hash (req_newPassword req) (salt env)))
                   (clubs s);
        otps := remove_first (OTP.matches (req_email req) (req_otp req))
                  (otps s);
        next_id := next_id s |}).
Proof.
  intros Herr Hotp Hclub.
  unfold reset_password, route, reset_password_body. rewrite Herr.
  cbn [isEmpty negb].
  unfold bind, OTP.findOne, Club.findOne. rewrite Hotp, Hclub. cbn.
  unfold Club.pre_save. cbn.
  destruct (password c =? req_newPassword req)%string; reflexivity.
Qed.

End VerifyFacts.

(** X5.  A verify-otp that finds the code and the account answers 200 with
    a token for that account's id that expires seven days after it was
    issued.  It turns that account's [verified] flag on and changes
    nothing else of it, the password hash included; every other account is
    left as it was; and exactly one OTP record is deleted. *)
Theorem verify_otp_marks_account {platform : Platform}
    (env : Env) (req : Request) (s : Store) (rec : OTPDoc) (c : ClubDoc) :
  verify_otp_errors req = [] ->
  find (OTP.matches (req_email req) (req_otp req)) (otps s) = Some rec ->
  find (Club.matches (Email (req_email req))) (clubs s) = Some c ->
  let token := jwt_sign (_id c) (now env) in
  let s' := snd (verify_otp env req s) in
  fst (verify_otp env req s)
  = {| status := 200;
       body := Authenticated "Email verified successfully" token (view_of c) |}
  /\ clubId token = _id c
  /\ exp token = iat token + 7 * 24 * 60 * 60
  /\ resolve (_id c) s' = Some (set_verified c true)
  /\ password (set_verified c true) = password c
  /\ (forall d, In d (clubs s) -> _id d <> _id c -> In d (clubs s'))
  /\ S (List.length (otps s')) = List.length (otps s).
Proof.
  intros Herr Hotp Hclub token s'. subst token s'.
  rewrite (verify_otp_found env req s rec c Herr Hotp Hclub). cbn [fst snd].
  apply find_In in Hclub as [Hin _].
  split; [reflexivity|]. split; [reflexivity|]. split; [reflexivity|].
  split.
  { rewrite resolve_find. cbn [clubs]. now apply find_replace. }
  split; [reflexivity|]. split.
  - intros d Hd Hid. cbn [clubs]. now apply in_replace_other.
  - cbn [otps]. now apply (remove_first_length _ _ rec).
Qed.

Lemma verify_otp_marks_account_witness :
  let P := Sample.platform in
  let s := snd (run (platform := P)
                  [(Signup, Sample.env 0 Sample.draw_half true, Sample.go)]
                  empty_store) in
  let env := Sample.env 1000 Sample.draw_zero true in
  let req := Sample.verify "b@x.com" "550000" in
  let c := registered (platform := P)
             (Sample.env 0 Sample.draw_half true) Sample.go 0 in
  let rec := issued_otp (platform := P)
               (Sample.env 0 Sample.draw_half true) Sample.go in
  verify_otp_errors (platform := P) req = []
  /\ find (OTP.matches (platform := P) (req_email req) (req_otp req)) (otps s)
     = Some rec
  /\ find (Club.matches (platform := P) (Email (req_email req))) (clubs s)
     = Some c
  /\ resolve (_id c) (snd (verify_otp (platform := P) env req s))
     = Some (set_verified c true).
Proof.
  intros P s env req c rec.
  assert (H1 : verify_otp_errors (platform := P) req = [])
    by (vm_compute; reflexivity).
  assert (H2 : find (OTP.matches (platform := P) (req_email req) (req_otp req))
                 (otps s) = Some rec) by (vm_compute; reflexivity).
  assert (H3 : find (Club.matches (platform := P) (Email (req_email req)))
                 (clubs s) = Some c) by (vm_compute; reflexivity).
  split; [exact H1|]. split; [exact H2|]. split; [exact H3|].
  exact (proj1 (proj2 (proj2 (proj2
           (verify_otp_marks_account (platform := P) env req s rec c
              H1 H2 H3))))).
Defined.

(* ================================================================== *)
(** * From signup to a verified account *)
(* ================================================================== *)

Section SignupThenVerify.
Context {platform : Platform}.





Lemma find_none_existsb {A} (p : A -> bool) l :
  find p l = None -> existsb p l = false.
Proof.
  intros H. apply existsb_false. now apply find_none_all.
Qed.

End SignupThenVerify.

(** When no account matches, signup reclaims nothing and no unique index
    stands in the way. *)
Lemma fresh_signup_conditions {platform : Platform} (env : Env)
    (req : Request) (s : Store) :
  existing_club req s = None ->
  (forall c, existing_club req s = Some c -> verified c = false)
  /\ reclaimed req s = clubs s
  /\ Club.duplicate_key (registered env req (next_id s)) (reclaimed req s)
     = false.
Proof.
  intros Hex.
  assert (Hrec : reclaimed req s = clubs s)
    by (unfold reclaimed; now rewrite Hex).
  split; [intros c Hc; rewrite Hex in Hc; discriminate|].
  split; [exact Hrec|].
  rewrite Hrec. unfold Club.duplicate_key. apply find_none_existsb.
  exact Hex.
Qed.

(** X6.  A signup whose email and name match no account always registers:
    the unique indexes cannot reject it, every account already there stays
    as it is, and the new account (unverified, its password hashed) and
    the new OTP record are appended.  The answer is 201, or 500 when the
    e-mail is not delivered. *)
Theorem signup_fresh_registers {platform : Platform}
    (env : Env) (req : Request) (s : Store) :
  signup_errors req = [] ->
  existing_club req s = None ->
  signup env req s
  = (if mail_ok env
     then {| status := 201;
             body := Sent "OTP sent to your email. Please verify within 10 minutes."
                       (req_email req) |}
     else {| status := 500;
             body := Failure "Error during signup" "Failed to send email" |},
     {| clubs := clubs s ++ [registered env req (next_id s)];
        otps := otps s ++ [issued_otp env req];
        next_id := S (next_id s) |}).
Proof.
  intros Herr Hex.
  destruct (fresh_signup_conditions env req s Hex) as [Hun [Hrec Hdup]].
  rewrite (signup_registers env req s Herr Hun Hdup).
  now rewrite Hrec.
Qed.

Lemma signup_fresh_registers_witness :
  let P := Sample.platform in
  let env := Sample.env 0 Sample.draw_zero true in
  signup_errors (platform := P) Sample.chess = []
  /\ existing_club (platform := P) Sample.chess empty_store = None
  /\ signup (platform := P) env Sample.chess empty_store
     = ({| status := 201;
           body := Sent "OTP sent to your email. Please verify within 10 minutes."
                     "a@x.com" |},
        {| clubs := [registered (platform := P) env Sample.chess 0];
           otps := [issued_otp (platform := P) env Sample.chess];
           next_id := 1 |}).
Proof.
  intros P env.
  assert (H1 : signup_errors (platform := P) Sample.chess = [])
    by (vm_compute; reflexivity).
  assert (H2 : existing_club (platform := P) Sample.chess empty_store = None)
    by reflexivity.
  split; [exact H1|]. split; [exact H2|].
  exact (signup_fresh_registers (platform := P) env Sample.chess empty_store
           H1 H2).
Defined.



(* ================================================================== *)
(** * Issuing a code again *)
(* ================================================================== *)

Section ReissueFacts.
Context {platform : Platform}.






Lemma find_by_email_other_flag (l : list ClubDoc) (c : ClubDoc) (e : string) :
  NoDup (map email l) -> In c l -> email c = Club.cast_email e ->
  find (Club.matches (EmailVerified e (negb (verified c)))) l = None.
Proof.
  intros Hnd Hin He. apply find_none_all. intros x Hx. cbn.
  destruct (String.eqb_spec (email x) (Club.cast_email e)) as [E | NE];
    [|reflexivity].
  assert (x = c) as -> by
    (apply (same_key_same_doc email l x c Hnd Hx Hin); congruence).
  cbn. now destruct (verified c).
Qed.

End ReissueFacts.

(** X8.  Once resend-otp or forgot-password has found its account, and
    whether or not the e-mail is then delivered, the record it creates is
    the only one left for that email, the records of other emails are all
    still there, and no account has changed. *)
Theorem reissue_replaces_own_codes {platform : Platform}
    (c : Call) (env : Env) (req : Request) (s : Store) (d : ClubDoc) :
  c = ResendOtp \/ c = ForgotPassword ->
  reissue_errors c req = [] ->
  find (Club.matches (reissue_filter c (req_email req))) (clubs s) = Some d ->
  let s' := snd (handle c env req s) in
  outstanding (req_email req) s' = [issued_otp env req]
  /\ (forall rec, In rec (otps s) ->
                  OTP.issued_for (req_email req) rec = false ->
                  In rec (otps s'))
  /\ clubs s' = clubs s.
Proof.
  intros Hc Herr Hd s'. subst s'.
  split; [exact (reissue_supersedes c env req s d Hc Herr Hd)|].
  rewrite (reissue_writes c env req s d Hc Herr Hd). cbn [snd otps clubs].
  split; [|reflexivity].
  intros rec Hin Hother. apply in_or_app. left.
  apply remove_all_In. now split.
Qed.

(** "Chess Club" asks for a new code; nothing is delivered. *)
Lemma reissue_replaces_own_codes_witness :
  let P := Sample.platform in
  let s := Cases.two_clubs in
  let env := Sample.env 5000 Sample.draw_half false in
  let req := Sample.credentials "a@x.com" "" in
  let d := registered (platform := P)
             (Sample.env 2000 Sample.draw_zero true) Sample.chess 1 in
  (ResendOtp = ResendOtp \/ ResendOtp = ForgotPassword)
  /\ reissue_errors (platform := P) ResendOtp req = []
  /\ find (Club.matches (platform := P)
             (reissue_filter (platform := P) ResendOtp (req_email req)))
       (clubs s) = Some d
  /\ outstanding (platform := P) (req_email req)
       (snd (handle (platform := P) ResendOtp env req s))
     = [issued_otp (platform := P) env req].
Proof.
  intros P s env req d.
  assert (H1 : ResendOtp = ResendOtp \/ ResendOtp = ForgotPassword)
    by (left; reflexivity).
  assert (H2 : reissue_errors (platform := P) ResendOtp req = [])
    by (vm_compute; reflexivity).
  assert (H3 : find (Club.matches (platform := P)
                       (reissue_filter (platform := P) ResendOtp
                          (req_email req))) (clubs s) = Some d)
    by (vm_compute; reflexivity).
  split; [exact H1|]. split; [exact H2|]. split; [exact H3|].
  exact (proj1 (reissue_replaces_own_codes (platform := P) ResendOtp env req
                  s d H1 H2 H3)).
Defined.

(** X9.  The two issuing routes are gated by the account's state: for a
    verified account resend-otp, and for an unverified account
    forgot-password, answers 404 and writes nothing. *)
Theorem reissue_refused_in_wrong_state {platform : Platform}
    (env : Env) (req : Request) (s : Store) (c : ClubDoc) :
  consistent s -> In c (clubs s) ->
  email c = Club.cast_email (req_email req) ->
  isEmail (req_email req) = true ->
  (if verified c then resend_otp env req s else forgot_password env req s)
  = ({| status := 404;
        body := Message false
                  (if verified c
                   then "No unverified club found with this email"
                   else "No verified club found with this email") |}, s).
Proof.
  intros Hs Hin He Hvalid.
  pose proof (find_by_email_other_flag (clubs s) c (req_email req)
                (emails_distinct s Hs) Hin He) as Hnone.
  destruct (verified c); cbn [negb] in Hnone;
    unfold resend_otp, forgot_password, route, resend_otp_body,
      forgot_password_body, resend_otp_errors, forgot_password_errors;
    rewrite Hvalid; cbn [check isEmpty negb];
    unfold bind, Club.findOne; now rewrite Hnone.
Qed.

(** The verified "Go Club" asks for a verification code. *)
Lemma reissue_refused_in_wrong_state_witness :
  let P := Sample.platform in
  let s := Cases.two_clubs in
  let env := Sample.env 5000 Sample.draw_half true in
  let req := Sample.credentials "b@x.com" "" in
  let c := set_verified
             (registered (platform := P)
                (Sample.env 0 Sample.draw_half true) Sample.go 0) true in
  consistent s
  /\ In c (clubs s)
  /\ email c = Club.cast_email (platform := P) (req_email req)
  /\ isEmail (Platform := P) (req_email req) = true
  /\ (if verified c
      then resend_otp (platform := P) env req s
      else forgot_password (platform := P) env req s)
     = ({| status := 404;
           body := Message false
                     (if verified c
                      then "No unverified club found with this email"
                      else "No verified club found with this email") |}, s).
Proof.
  intros P s env req c.
  assert (H1 : consistent s) by exact two_clubs_consistent.
  assert (H2 : In c (clubs s)) by (vm_compute; left; reflexivity).
  assert (H3 : email c = Club.cast_email (platform := P) (req_email req))
    by (vm_compute; reflexivity).
  assert (H4 : isEmail (Platform := P) (req_email req) = true)
    by (vm_compute; reflexivity).
  split; [exact H1|]. split; [exact H2|]. split; [exact H3|].
  split; [exact H4|].
  exact (reissue_refused_in_wrong_state (platform := P) env req s c
           H1 H2 H3 H4).
Defined.

(* ================================================================== *)
(** * From forgot-password to a new password *)
(* ================================================================== *)



(* ================================================================== *)
(** * Logging in *)
(* ================================================================== *)

(** X11.  Login answers 200 in exactly one situation: the request passes
    the validators, an account has the email (as the schema casts it), the
    account is verified, and [bcrypt.compare] accepts the password against
    the stored hash. *)
Theorem login_succeeds_exactly {platform : Platform}
    (env : Env) (req : Request) (s : Store) :
  consistent s ->
  (status (fst (login env req s)) = 200
   <-> login_errors req = []
       /\ exists c, In c (clubs s)
                    /\ email c = Club.cast_email (req_email req)
                    /\ verified c = true
                    /\ bcrypt_compare (req_password req) (password c) = true).
Proof.
  intros Hs. split.
  - unfold login, route, login_body.
    destruct (login_errors req) as [|e errs] eqn:Herr; cbn [isEmpty negb];
      [|cbn; discriminate].
    unfold bind, Club.findOne.
    destruct (find (Club.matches (Email (req_email req))) (clubs s))
      as [c|] eqn:Hfind; cbn; [|discriminate].
    destruct (verified c) eqn:Hv; cbn; [|discriminate].
    unfold Club.comparePassword. cbn.
    destruct (bcrypt_compare (req_password req) (password c)) eqn:Hcmp; cbn;
      [|discriminate].
    intros _. split; [reflexivity|]. exists c.
    apply find_In in Hfind as [Hin Hm]. cbn in Hm.
    apply String.eqb_eq in Hm. auto.
  - intros [Herr [c [Hin [He [Hv Hcmp]]]]].
    rewrite (login_verified env req s c Hs Hin Hv (eq_sym He) Herr).
    now rewrite Hcmp.
Qed.

Lemma login_succeeds_exactly_witness :
  let P := Sample.platform in
  let env := Sample.env 5000 Sample.draw_zero true in
  let req := Sample.credentials "b@x.com" "secret2" in
  consistent Cases.two_clubs
  /\ status (fst (login (platform := P) env req Cases.two_clubs)) = 200.
Proof.
  intros P env req.
  assert (H1 : consistent Cases.two_clubs) by exact two_clubs_consistent.
  split; [exact H1|].
  apply (proj2 (login_succeeds_exactly (platform := P) env req
                  Cases.two_clubs H1)).
  split; [vm_compute; reflexivity|].
  exists (set_verified
            (registered (platform := P)
               (Sample.env 0 Sample.draw_half true) Sample.go 0) true).
  split; [vm_compute; left; reflexivity|].
  repeat split; vm_compute; reflexivity.
Defined.

(** X12.  Login does not tell an unknown email from a wrong password: a
    request for an email no account has and a request with a password
    [bcrypt.compare] rejects for a verified account get the same answer,
    401 "Invalid email or password", and neither writes anything. *)
Theorem login_unknown_like_wrong_password {platform : Platform}
    (env : Env) (unknown wrong : Request) (s : Store) (c : ClubDoc) :
  consistent s ->
  login_errors unknown = [] -> login_errors wrong = [] ->
  (forall d, In d (clubs s) ->
             email d <> Club.cast_email (req_email unknown)) ->
  In c (clubs s) -> verified c = true ->
  email c = Club.cast_email (req_email wrong) ->
  bcrypt_compare (req_password wrong) (password c) = false ->
  login env unknown s
  = ({| status := 401; body := Message false "Invalid email or password" |}, s)
  /\ login env wrong s = login env unknown s.
Proof.
  intros Hs Hu Hw Hnone Hin Hv He Hcmp.
  assert (Hfu : find (Club.matches (Email (req_email unknown))) (clubs s)
                = None).
  { apply find_none_all. intros d Hd. cbn. apply String.eqb_neq.
    now apply Hnone. }
  pose proof (find_by_email (clubs s) c (req_email wrong)
                (emails_distinct s Hs) Hin (eq_sym He)) as Hfw.
  assert (Eu : login env unknown s
               = ({| status := 401;
                     body := Message false "Invalid email or password" |}, s)).
  { unfold login, route, login_body. rewrite Hu. cbn [isEmpty negb].
    unfold bind, Club.findOne. now rewrite Hfu. }
  split; [exact Eu|]. rewrite Eu.
  unfold login, route, login_body. rewrite Hw. cbn [isEmpty negb].
  unfold bind, Club.findOne. rewrite Hfw. cbn. rewrite Hv. cbn.
  unfold Club.comparePassword. cbn. now rewrite Hcmp.
Qed.

Lemma login_unknown_like_wrong_password_witness :
  let P := Sample.platform in
  let env := Sample.env 5000 Sample.draw_zero true in
  let s := Cases.two_clubs in
  let unknown := Sample.credentials "z@x.com" "secret2" in
  let wrong := Sample.credentials "b@x.com" "secret9" in
  let c := set_verified
             (registered (platform := P)
                (Sample.env 0 Sample.draw_half true) Sample.go 0) true in
  consistent s
  /\ login_errors (platform := P) unknown = []
  /\ login_errors (platform := P) wrong = []
  /\ In c (clubs s)
  /\ verified c = true
  /\ email c = Club.cast_email (platform := P) (req_email wrong)
  /\ bcrypt_compare (Platform := P) (req_password wrong) (password c) = false
  /\ login (platform := P) env wrong s = login (platform := P) env unknown s.
Proof.
  intros P env s unknown wrong c.
  assert (H1 : consistent s) by exact two_clubs_consistent.
  assert (H2 : login_errors (platform := P) unknown = [])
    by (vm_compute; reflexivity).
  assert (H3 : login_errors (platform := P) wrong = [])
    by (vm_compute; reflexivity).
  assert (H4 : forall d, In d (clubs s) ->
                 email d <> Club.cast_email (platform := P) (req_email unknown)).
  { assert (E : map email (clubs s) = ["b@x.com"; "a@x.com"]%string)
      by (vm_compute; reflexivity).
    assert (Eu : Club.cast_email (platform := P) (req_email unknown)
                 = "z@x.com"%string) by (vm_compute; reflexivity).
    intros d Hd. rewrite Eu. apply (in_map email) in Hd. rewrite E in Hd.
    destruct Hd as [<- | [<- | []]]; discriminate. }
  assert (H5 : In c (clubs s)) by (vm_compute; left; reflexivity).
  assert (H6 : verified c = true) by reflexivity.
  assert (H7 : email c = Club.cast_email (platform := P) (req_email wrong))
    by (vm_compute; reflexivity).
  assert (H8 : bcrypt_compare (Platform := P) (req_password wrong) (password c)
               = false) by (vm_compute; reflexivity).
  split; [exact H1|]. split; [exact H2|]. split; [exact H3|].
  split; [exact H5|]. split; [exact H6|]. split; [exact H7|].
  split; [exact H8|].
  exact (proj2 (login_unknown_like_wrong_password (platform := P) env unknown
                  wrong s c H1 H2 H3 H4 H5 H6 H7 H8)).
Defined.

(* ================================================================== *)
(** * Deleting an account *)
(* ================================================================== *)

Lemma delete_account_rest (s : Store) (c : ClubDoc) :
  consistent s -> In c (clubs s) ->
  forall d, In d (clubs (snd (delete_account (_id c) s)))
            <-> In d (clubs s) /\ _id d <> _id c.
Proof.
  intros Hs Hin d.
  rewrite (delete_account_known (_id c) s c (resolve_In s c Hs Hin)).
  cbn [snd clubs]. split.
  - apply (remove_first_other_ids _ _ _ (ids_distinct s Hs)).
  - intros [Hd Hid]. apply remove_first_keeps; [assumption|].
    now apply Nat.eqb_neq.
Qed.

(** X13.  DELETE /delete-account answers 200 for an account that exists
    and removes that account and no other: its id no longer resolves,
    every other account is still there, and the same request a second
    time is answered 404.  The OTP records, those of the deleted account's
    email included, are left in the store. *)
Theorem delete_account_removes_only_it (s : Store) (c : ClubDoc) :
  consistent s -> In c (clubs s) ->
  let s' := snd (delete_account (_id c) s) in
  fst (delete_account (_id c) s)
  = {| status := 200;
       body := Message true
         "Club account deleted successfully. All associated data has been removed." |}
  /\ resolve (_id c) s' = None
  /\ (forall d, In d (clubs s') <-> In d (clubs s) /\ _id d <> _id c)
  /\ otps s' = otps s
  /\ delete_account (_id c) s'
     = ({| status := 404; body := Message false "Club not found" |}, s').
Proof.
  intros Hs Hin s'. subst s'.
  rewrite (delete_account_known (_id c) s c (resolve_In s c Hs Hin)).
  cbn [fst snd].
  assert (Hgone : resolve (_id c)
                    {| clubs := remove_first
                                  (fun d => Nat.eqb (_id d) (_id c)) (clubs s);
                       otps := otps s; next_id := next_id s |} = None).
  { rewrite resolve_find. cbn [clubs]. apply find_none_all. intros x Hx.
    apply (remove_first_other_ids _ _ _ (ids_distinct s Hs)) in Hx as [_ Hx].
    now apply Nat.eqb_neq. }
  split; [reflexivity|]. split; [exact Hgone|]. split.
  - intros d. cbn [clubs]. split.
    + apply (remove_first_other_ids _ _ _ (ids_distinct s Hs)).
    + intros [Hd Hid]. apply remove_first_keeps; [assumption|].
      now apply Nat.eqb_neq.
  - split; [reflexivity|]. now apply delete_account_unknown.
Qed.

Lemma delete_account_removes_only_it_witness :
  let s := Cases.two_clubs in
  let c := set_verified
             (registered (platform := Sample.platform)
                (Sample.env 0 Sample.draw_half true) Sample.go 0) true in
  consistent s
  /\ In c (clubs s)
  /\ resolve (_id c) (snd (delete_account (_id c) s)) = None.
Proof.
  intros s c.
  assert (H1 : consistent s) by exact two_clubs_consistent.
  assert (H2 : In c (clubs s)) by (vm_compute; left; reflexivity).
  split; [exact H1|]. split; [exact H2|].
  exact (proj1 (proj2 (delete_account_removes_only_it s c H1 H2))).
Defined.

(** X14.  Deleting an account frees its email and its name, verified or
    not: a login with that email is then answered 401 like an unknown one,
    and a signup under the same email and name registers a new account. *)
Theorem deleted_account_frees_its_keys {platform : Platform}
    (env env' : Env) (req attempt : Request) (s : Store) (c : ClubDoc) :
  consistent s -> In c (clubs s) ->
  signup_errors req = [] ->
  Club.cast_email (req_email req) = email c ->
  Club.cast_name (trim (req_name req)) = name c ->
  login_errors attempt = [] ->
  Club.cast_email (req_email attempt) = email c ->
  let s1 := snd (delete_account (_id c) s) in
  fst (login env' attempt s1)
  = {| status := 401; body := Message false "Invalid email or password" |}
  /\ fst (signup env req s1)
     = (if mail_ok env
        then {| status := 201;
                body := Sent "OTP sent to your email. Please verify within 10 minutes."
                          (req_email req) |}
        else {| status := 500;
                body := Failure "Error during signup" "Failed to send email" |})
  /\ clubs (snd (signup env req s1))
     = clubs s1 ++ [registered env req (next_id s)].
Proof.
  intros Hs Hin Herr He Hn Hla Hae s1.
  pose proof (delete_account_rest s c Hs Hin) as Hrest. fold s1 in Hrest.
  assert (Hnext : next_id s1 = next_id s).
  { unfold s1.
    now rewrite (delete_account_known (_id c) s c (resolve_In s c Hs Hin)). }
  assert (Hfree : forall x, In x (clubs s1) ->
                    email x <> email c /\ name x <> name c).
  { intros x Hx. apply Hrest in Hx as [Hx Hid]. split; intros E; apply Hid.
    - now rewrite (same_key_same_doc email (clubs s) x c
                     (emails_distinct s Hs) Hx Hin E).
    - now rewrite (same_key_same_doc name (clubs s) x c
                     (names_distinct s Hs) Hx Hin E). }
  assert (Hex : existing_club req s1 = None).
  { unfold existing_club. apply find_none_all. intros x Hx.
    destruct (Hfree x Hx) as [Hxe Hxn]. cbn. rewrite He, Hn.
    apply orb_false_iff. split; now apply String.eqb_neq. }
  assert (Hlog : find (Club.matches (Email (req_email attempt))) (clubs s1)
                 = None).
  { apply find_none_all. intros x Hx. destruct (Hfree x Hx) as [Hxe _].
    cbn. rewrite Hae. now apply String.eqb_neq. }
  split.
  { unfold login, route, login_body. rewrite Hla. cbn [isEmpty negb].
    unfold bind, Club.findOne. now rewrite Hlog. }
  destruct (fresh_signup_conditions env req s1 Hex) as [Hun [Hrec Hdup]].
  rewrite (signup_registers env req s1 Herr Hun Hdup), Hrec.
  cbn [fst snd clubs].
  rewrite Hnext. split; reflexivity.
Qed.

(** The verified "Go Club" deletes its account and signs up again. *)
Lemma deleted_account_frees_its_keys_witness :
  let P := Sample.platform in
  let s := Cases.two_clubs in
  let env := Sample.env 7000 Sample.draw_zero true in
  let c := set_verified
             (registered (platform := P)
                (Sample.env 0 Sample.draw_half true) Sample.go 0) true in
  let attempt := Sample.credentials "b@x.com" "secret2" in
  let s1 := snd (delete_account (_id c) s) in
  consistent s
  /\ In c (clubs s)
  /\ signup_errors (platform := P) Sample.go = []
  /\ Club.cast_email (platform := P) (req_email Sample.go) = email c
  /\ Club.cast_name (platform := P) (trim (req_name Sample.go)) = name c
  /\ login_errors (platform := P) attempt = []
  /\ Club.cast_email (platform := P) (req_email attempt) = email c
  /\ fst (login (platform := P) env attempt s1)
     = {| status := 401; body := Message false "Invalid email or password" |}.
Proof.
  intros P s env c attempt s1.
  assert (H1 : consistent s) by exact two_clubs_consistent.
  assert (H2 : In c (clubs s)) by (vm_compute; left; reflexivity).
  assert (H3 : signup_errors (platform := P) Sample.go = [])
    by (vm_compute; reflexivity).
  assert (H4 : Club.cast_email (platform := P) (req_email Sample.go) = email c)
    by (vm_compute; reflexivity).
  assert (H5 : Club.cast_name (platform := P) (trim (req_name Sample.go))
               = name c) by (vm_compute; reflexivity).
  assert (H6 : login_errors (platform := P) attempt = [])
    by (vm_compute; reflexivity).
  assert (H7 : Club.cast_email (platform := P) (req_email attempt) = email c)
    by (vm_compute; reflexivity).
  split; [exact H1|]. split; [exact H2|]. split; [exact H3|].
  split; [exact H4|]. split; [exact H5|]. split; [exact H6|].
  split; [exact H7|].
  exact (proj1 (deleted_account_frees_its_keys (platform := P) env env
                  Sample.go attempt s c H1 H2 H3 H4 H5 H6 H7)).
Defined.

(* ================================================================== *)
(** * The profile *)
(* ================================================================== *)

(** X15.  PUT /profile with a description that is not blank answers 200
    with the account carrying the trimmed description and everything else
    as before (flag, email, name, members, events), never the password;
    GET /profile then shows the same document; every other account and
    every OTP record is untouched. *)
Theorem update_profile_changes_description {platform : Platform}
    (req : Request) (s : Store) (c : ClubDoc) :
  consistent s -> In c (clubs s) ->
  update_profile_errors req = [] ->
  let c' := set_description c (trim (req_description req)) in
  let s' := snd (update_profile (_id c) req s) in
  fst (update_profile (_id c) req s)
  = {| answer_status := 200;
       answer_body := OneClubSaid "Profile updated successfully"
                        (without_password c') |}
  /\ get_profile (_id c) s'
     = {| answer_status := 200; answer_body := OneClub (without_password c') |}
  /\ resolve (_id c) s' = Some c'
  /\ (forall d, In d (clubs s) -> _id d <> _id c -> In d (clubs s'))
  /\ otps s' = otps s.
Proof.
  intros Hs Hin Herr c' s'. subst c' s'.
  rewrite (update_profile_known (_id c) req s c Herr (resolve_In s c Hs Hin)).
  cbn [fst snd].
  assert (Hres : resolve (_id c)
                   {| clubs := Club.replace
                                 (set_description c (trim (req_description req)))
                                 (clubs s);
                      otps := otps s; next_id := next_id s |}
                 = Some (set_description c (trim (req_description req)))).
  { rewrite resolve_find. cbn [clubs]. now apply find_replace. }
  split; [reflexivity|]. split.
  { unfold get_profile. now rewrite Hres. }
  split; [exact Hres|]. split; [|reflexivity].
  intros d Hd Hid. cbn [clubs]. now apply in_replace_other.
Qed.

Lemma update_profile_changes_description_witness :
  let P := Sample.platform in
  let s := Cases.two_clubs in
  let c := set_verified
             (registered (platform := P)
                (Sample.env 0 Sample.draw_half true) Sample.go 0) true in
  let req := Sample.request "" "  Games on Fridays " "" "" "" "" in
  consistent s
  /\ In c (clubs s)
  /\ update_profile_errors (platform := P) req = []
  /\ resolve (_id c) (snd (update_profile (platform := P) (_id c) req s))
     = Some (set_description c "Games on Fridays").
Proof.
  intros P s c req.
  assert (H1 : consistent s) by exact two_clubs_consistent.
  assert (H2 : In c (clubs s)) by (vm_compute; left; reflexivity).
  assert (H3 : update_profile_errors (platform := P) req = [])
    by (vm_compute; reflexivity).
  split; [exact H1|]. split; [exact H2|]. split; [exact H3|].
  exact (proj1 (proj2 (proj2
           (update_profile_changes_description (platform := P) req s c
              H1 H2 H3)))).
Defined.

(* ================================================================== *)
(** * The public listing *)
(* ================================================================== *)

Section ListingFacts.

Lemma insert_newest_perm c l : Permutation (insert_newest c l) (c :: l).
Proof.
  induction l as [|d l IH]; cbn; [reflexivity|].
  destruct (createdAt d <=? createdAt c); [reflexivity|].
  rewrite IH. apply perm_swap.
Qed.

Lemma newest_first_perm l : Permutation (newest_first l) l.
Proof.
  induction l as [|c l IH]; cbn; [constructor|].
  rewrite insert_newest_perm. now constructor.
Qed.

Lemma insert_newest_sorted c l :
  newest_to_oldest l -> newest_to_oldest (insert_newest c l).
Proof.
  induction l as [|d l IH]; cbn; [intros _; split; [intros ? [] | exact I]|].
  intros [Hd Hl].
  destruct (createdAt d <=? createdAt c) eqn:E.
  - apply Z.leb_le in E. cbn. repeat split; try assumption.
    intros x [<- | Hx]; [assumption|]. specialize (Hd x Hx). lia.
  - apply Z.leb_gt in E. cbn. split; [|now apply IH].
    intros x Hx.
    apply (Permutation_in _ (insert_newest_perm c l)) in Hx
      as [<- | Hx]; [lia | now apply Hd].
Qed.

Lemma newest_first_sorted l : newest_to_oldest (newest_first l).
Proof.
  induction l as [|c l IH]; cbn; [exact I|]. now apply insert_newest_sorted.
Qed.

End ListingFacts.

(** X16.  GET /clubs lists the verified clubs, each once and no
    unverified one, newest first; what it shows of a club has neither the
    password nor the flag. *)
Theorem get_clubs_lists_verified (s : Store) :
  exists l,
    get_clubs s
    = {| answer_status := 200; answer_body := ManyClubs (map listing_of l) |}
    /\ Permutation l (filter verified (clubs s))
    /\ (forall c, In c l <-> In c (clubs s) /\ verified c = true)
    /\ newest_to_oldest l.
Proof.
  exists (newest_first (filter verified (clubs s))).
  split; [reflexivity|]. split; [apply newest_first_perm|]. split.
  - intros c. rewrite <- filter_In. split; apply Permutation_in;
      [apply newest_first_perm | symmetry; apply newest_first_perm].
  - apply newest_first_sorted.
Qed.

(** X17.  GET /clubs/:clubId serves a club exactly when the id resolves
    to a verified account; for an unverified account the answer is the 404
    of an id that resolves to nothing. *)
Theorem get_club_serves_verified_only
    (castObjectId : string -> string + nat) (clubId : string) (id : nat)
    (s : Store) :
  consistent s ->
  castObjectId clubId = inr id ->
  get_club castObjectId clubId s
  = match resolve id s with
    | Some c =>
        if verified c
        then {| answer_status := 200; answer_body := OneListing (listing_of c) |}
        else {| answer_status := 404;
                answer_body := Basic (Message false "Club not found") |}
    | None => {| answer_status := 404;
                 answer_body := Basic (Message false "Club not found") |}
    end.
Proof.
  intros Hs Hcast. unfold get_club. rewrite Hcast, resolve_find.
  destruct (find (fun d => Nat.eqb (_id d) id) (clubs s)) as [c|] eqn:Hid.
  - apply find_In in Hid as [Hin Hc]. apply Nat.eqb_eq in Hc.
    destruct (verified c) eqn:Hv.
    + destruct (find_some_exists
                  (fun d => Nat.eqb (_id d) id && Bool.eqb (verified d) true)
                  (clubs s) c Hin) as [y Hy].
      { now rewrite Hc, Nat.eqb_refl, Hv. }
      rewrite Hy. apply find_In in Hy as [Hyin Hm].
      apply andb_true_iff in Hm as [Hm _]. apply Nat.eqb_eq in Hm.
      now rewrite (same_key_same_doc _id (clubs s) y c (ids_distinct s Hs)
                     Hyin Hin (eq_trans Hm (eq_sym Hc))).
    + replace (find (fun d => Nat.eqb (_id d) id && Bool.eqb (verified d) true)
                 (clubs s)) with (@None ClubDoc); [reflexivity|].
      symmetry. apply find_none_all. intros x Hx.
      destruct (Nat.eqb_spec (_id x) id) as [E | NE]; [|reflexivity].
      rewrite (same_key_same_doc _id (clubs s) x c (ids_distinct s Hs)
                 Hx Hin (eq_trans E (eq_sym Hc))).
      now rewrite Hv.
  - replace (find (fun d => Nat.eqb (_id d) id && Bool.eqb (verified d) true)
               (clubs s)) with (@None ClubDoc); [reflexivity|].
    symmetry. apply find_none_all. intros x Hx.
    rewrite find_none_all in Hid. now rewrite (Hid x Hx).
Qed.

(** The unverified "Chess Club", id 1, is not shown. *)
Lemma get_club_serves_verified_only_witness :
  let s := Cases.two_clubs in
  consistent s
  /\ Cases.cast_id "1" = inr 1%nat
  /\ get_club Cases.cast_id "1" s
     = {| answer_status := 404;
          answer_body := Basic (Message false "Club not found") |}.
Proof.
  intros s.
  assert (H1 : consistent s) by exact two_clubs_consistent.
  assert (H2 : Cases.cast_id "1" = inr 1%nat) by reflexivity.
  split; [exact H1|]. split; [exact H2|].
  rewrite (get_club_serves_verified_only Cases.cast_id "1" 1 s H1 H2).
  vm_compute. reflexivity.
Defined.

(* ================================================================== *)
(** * Refusals that write nothing *)
(* ================================================================== *)

(** X18.  A signup is refused with 400 and changes nothing when a
    verified account holds the email or the name it asks for and no other
    account holds either. *)
Theorem signup_refused_by_verified_holder {platform : Platform}
    (env : Env) (req : Request) (s : Store) (c : ClubDoc) :
  consistent s -> In c (clubs s) -> verified c = true ->
  signup_errors req = [] ->
  email c = Club.cast_email (req_email req)
  \/ name c = Club.cast_name (trim (req_name req)) ->
  (forall d, In d (clubs s) -> _id d <> _id c ->
             Club.matches
               (EmailOrName (req_email req) (trim (req_name req))) d = false) ->
  signup env req s
  = ({| status := 400;
        body := Message false "Club with this email or name already exists" |},
     s).
Proof.
  intros Hs Hin Hv Herr Hkey Hothers.
  destruct (find_some_exists
              (Club.matches (EmailOrName (req_email req) (trim (req_name req))))
              (clubs s) c Hin) as [y Hy].
  { cbn. apply orb_true_iff.
    destruct Hkey as [-> | ->]; [left | right]; apply String.eqb_refl. }
  assert (y = c) as ->.
  { pose proof (find_In _ _ _ Hy) as [Hyin Hm].
    destruct (Nat.eq_dec (_id y) (_id c)) as [E | NE].
    - exact (same_key_same_doc _id (clubs s) y c (ids_distinct s Hs)
               Hyin Hin E).
    - rewrite (Hothers y Hyin NE) in Hm. discriminate. }
  exact (signup_duplicate_active env req s c Herr Hy Hv).
Qed.

(** "Go Club" signs up again. *)
Lemma signup_refused_by_verified_holder_witness :
  let P := Sample.platform in
  let s := Cases.two_clubs in
  let env := Sample.env 9000 Sample.draw_zero true in
  let c := set_verified
             (registered (platform := P)
                (Sample.env 0 Sample.draw_half true) Sample.go 0) true in
  consistent s
  /\ In c (clubs s)
  /\ verified c = true
  /\ signup_errors (platform := P) Sample.go = []
  /\ (email c = Club.cast_email (platform := P) (req_email Sample.go)
      \/ name c = Club.cast_name (platform := P) (trim (req_name Sample.go)))
  /\ signup (platform := P) env Sample.go s
     = ({| status := 400;
           body := Message false
                     "Club with this email or name already exists" |}, s).
Proof.
  intros P s env c.
  assert (H1 : consistent s) by exact two_clubs_consistent.
  assert (H2 : In c (clubs s)) by (vm_compute; left; reflexivity).
  assert (H3 : verified c = true) by reflexivity.
  assert (H4 : signup_errors (platform := P) Sample.go = [])
    by (vm_compute; reflexivity).
  assert (H5 : email c = Club.cast_email (platform := P) (req_email Sample.go)
               \/ name c = Club.cast_name (platform := P)
                             (trim (req_name Sample.go)))
    by (left; vm_compute; reflexivity).
  assert (H6 : forall d, In d (clubs s) -> _id d <> _id c ->
                 Club.matches (platform := P)
                   (EmailOrName (req_email Sample.go)
                      (trim (req_name Sample.go))) d = false).
  { assert (E : clubs s
                = [c; registered (platform := P)
                        (Sample.env 2000 Sample.draw_zero true)
                        Sample.chess 1])
      by (vm_compute; reflexivity).
    intros d Hd Hid. rewrite E in Hd.
    destruct Hd as [<- | [<- | []]];
      [exfalso; apply Hid; reflexivity | vm_compute; reflexivity]. }
  split; [exact H1|]. split; [exact H2|]. split; [exact H3|].
  split; [exact H4|]. split; [exact H5|].
  exact (signup_refused_by_verified_holder (platform := P) env Sample.go s c
           H1 H2 H3 H4 H5 H6).
Defined.

(** X19.  A wrong guess costs nothing: a verify-otp or reset-password
    whose code matches no record of the email is answered 400 and leaves
    the store exactly as it was, so that the right code still works
    afterwards, however many guesses were made. *)
Theorem wrong_code_changes_nothing {platform : Platform}
    (via : Consumer) (env : Env) (req : Request) (s : Store) :
  consume_errors via req = [] ->
  (forall rec, In rec (otps s) ->
               otp_for rec = otp_email (req_email req) ->
               otp_code rec <> req_otp req) ->
  consume via env req s = (invalid_or_expired, s).
Proof.
  intros Herr Hwrong. apply consume_not_found; [exact Herr|].
  apply find_none_all. intros x Hx. unfold OTP.matches.
  destruct (String.eqb_spec (otp_for x) (otp_email (req_email req)))
    as [E | NE]; [|reflexivity].
  cbn. apply String.eqb_neq. now apply Hwrong.
Qed.

Lemma wrong_code_changes_nothing_witness :
  let P := Sample.platform in
  let s := Cases.two_clubs in
  let env := Sample.env 9000 Sample.draw_zero true in
  let req := Sample.verify "a@x.com" "123456" in
  consume_errors (platform := P) ViaVerifyOtp req = []
  /\ consume (platform := P) ViaVerifyOtp env req s = (invalid_or_expired, s).
Proof.
  intros P s env req.
  assert (H1 : consume_errors (platform := P) ViaVerifyOtp req = [])
    by (vm_compute; reflexivity).
  assert (H2 : forall rec, In rec (otps s) ->
                 otp_for rec = otp_email (Platform := P) (req_email req) ->
                 otp_code rec <> req_otp req).
  { assert (E : otps s = [issued_otp (platform := P)
                            (Sample.env 2000 Sample.draw_zero true)
                            Sample.chess])
      by (vm_compute; reflexivity).
    intros rec Hrec _. rewrite E in Hrec. destruct Hrec as [<- | []].
    vm_compute. discriminate. }
  split; [exact H1|].
  exact (wrong_code_changes_nothing (platform := P) ViaVerifyOtp env req s
           H1 H2).
Defined.

(* ================================================================== *)
(** * What is in the store, always *)
(* ================================================================== *)

Section StoredValues.
Context {platform : Platform}.

Lemma registered_hashed env req id : hashed (registered env req id).
Proof. exists (req_password req), (salt env). reflexivity. Qed.

Lemma consume_hashed via env req s :
  (forall c, In c (clubs s) -> hashed c) ->
  forall c, In c (clubs (snd (consume via env req s))) -> hashed c.
Proof.
  intros Hall.
  destruct (consume_errors via req) as [|e errs] eqn:Herr.
  2:{ now rewrite consume_invalid by (rewrite Herr; discriminate). }
  destruct (find (OTP.matches (req_email req) (req_otp req)) (otps s))
    as [rec|] eqn:Hotp.
  2:{ now rewrite (consume_not_found via env req s Herr Hotp). }
  destruct (find (Club.matches (account_filter via (req_email req))) (clubs s))
    as [c|] eqn:Hclub.
  2:{ now rewrite (consume_no_account via env req s rec Herr Hotp Hclub). }
  pose proof (find_In _ _ _ Hclub) as [Hin _].
  destruct via; cbn [consume consume_errors account_filter] in *.
  - rewrite (verify_otp_found env req s rec c Herr Hotp Hclub). cbn [snd clubs].
    intros d Hd. apply in_replace_inv in Hd as [[-> _] | Hd]; [|now apply Hall].
    exact (Hall c Hin).
  - rewrite (reset_password_found env req s rec c Herr Hotp Hclub).
    cbn [snd clubs].
    intros d Hd. apply in_replace_inv in Hd as [[-> _] | Hd]; [|now apply Hall].
    unfold hashed. cbn [password set_password].
    destruct (String.eqb_spec (password c) (req_newPassword req)) as [E | NE].
    + rewrite <- E. exact (Hall c Hin).
    + now exists (req_newPassword req), (salt env).
Qed.

Lemma perform_hashed op s :
  (forall c, In c (clubs s) -> hashed c) ->
  forall c, In c (clubs (perform op s)) -> hashed c.
Proof.
  intros Hall.
  destruct op as [call env req | clubId req | clubId]; cbn [perform].
  - destruct call.
    + cbn [handle].
      destruct (signup_clubs env req s) as [E | [_ [E | E]]]; rewrite E.
      * exact Hall.
      * intros c Hc. apply Hall. now apply (reclaimed_In req).
      * intros c Hc. apply in_app_or in Hc as [Hc | [<- | []]].
        -- apply Hall. now apply (reclaimed_In req).
        -- apply registered_hashed.
    + apply (consume_hashed ViaVerifyOtp); exact Hall.
    + rewrite (reissue_clubs ResendOtp) by now left. exact Hall.
    + cbn [handle]. rewrite login_store. exact Hall.
    + rewrite (reissue_clubs ForgotPassword) by now right. exact Hall.
    + apply (consume_hashed ViaResetPassword); exact Hall.
  - destruct (update_profile_errors req) as [|e errs] eqn:Herr.
    2:{ now rewrite update_profile_invalid by (rewrite Herr; discriminate). }
    destruct (resolve clubId s) as [c|] eqn:Hres.
    2:{ now rewrite (update_profile_unknown clubId req s Herr Hres). }
    rewrite (update_profile_known clubId req s c Herr Hres). cbn [snd clubs].
    rewrite resolve_find in Hres. apply find_In in Hres as [Hc _].
    intros d Hd. apply in_replace_inv in Hd as [[-> _] | Hd]; [|now apply Hall].
    exact (Hall c Hc).
  - destruct (resolve clubId s) as [c|] eqn:Hres.
    2:{ now rewrite (delete_account_unknown clubId s Hres). }
    rewrite (delete_account_known clubId s c Hres). cbn [snd clubs].
    intros d Hd. apply Hall. eapply remove_first_In; eassumption.
Qed.

(** What a route leaves in the [otps] collection: records that were
    there, and at most the one it issued. *)
Lemma perform_otps op s rec :
  In rec (otps (perform op s)) ->
  In rec (otps s)
  \/ exists call env req, op = Auth call env req /\ rec = issued_otp env req.
Proof.
  destruct op as [call env req | clubId req | clubId]; cbn [perform].
  - assert (Hconsume : forall via,
              In rec (otps (snd (consume via env req s))) -> In rec (otps s)).
    { intros via Hin.
      destruct (consume_errors via req) as [|e errs] eqn:Herr.
      2:{ now rewrite consume_invalid in Hin by (rewrite Herr; discriminate). }
      destruct (find (OTP.matches (req_email req) (req_otp req)) (otps s))
        as [r|] eqn:Hotp.
      2:{ now rewrite (consume_not_found via env req s Herr Hotp) in Hin. }
      destruct (find (Club.matches (account_filter via (req_email req)))
                  (clubs s)) as [c|] eqn:Hclub.
      2:{ now rewrite (consume_no_account via env req s r Herr Hotp Hclub)
            in Hin. }
      destruct (consume_found via env req s r c Herr Hotp Hclub) as [_ E].
      rewrite E in Hin. eapply remove_first_In; eassumption. }
    assert (Hreissue : forall c, c = ResendOtp \/ c = ForgotPassword ->
              In rec (otps (snd (handle c env req s))) ->
              In rec (otps s) \/ rec = issued_otp env req).
    { intros c Hc Hin.
      destruct (reissue_errors c req) as [|e errs] eqn:Herr.
      - destruct (find (Club.matches (reissue_filter c (req_email req)))
                    (clubs s)) as [d|] eqn:Hd.
        + rewrite (reissue_writes c env req s d Hc Herr Hd) in Hin.
          cbn [snd otps] in Hin.
          apply in_app_or in Hin as [Hin | [<- | []]]; [left | now right].
          apply remove_all_In in Hin. tauto.
        + left. revert Hin.
          destruct Hc as [-> | ->];
            cbn [reissue_errors reissue_filter handle] in *;
            unfold resend_otp, forgot_password, route, resend_otp_body,
              forgot_password_body;
            rewrite Herr; cbn [isEmpty negb];
            unfold bind, Club.findOne; now rewrite Hd.
      - left. revert Hin.
        destruct Hc as [-> | ->]; cbn [reissue_errors handle] in *;
          unfold resend_otp, forgot_password, route, resend_otp_body,
            forgot_password_body;
          now rewrite Herr. }
    destruct call; cbn [handle]; intros Hin.
    + destruct (signup_errors req) as [|e errs] eqn:Herr.
      2:{ left.
          now rewrite signup_invalid in Hin by (rewrite Herr; discriminate). }
      destruct (existing_club req s) as [c|] eqn:Hex.
      * destruct (verified c) eqn:Hv.
        { left.
          now rewrite (signup_duplicate_active env req s c Herr Hex Hv) in Hin. }
        assert (Hun : forall c', existing_club req s = Some c' ->
                                 verified c' = false)
          by (intros c' Hc'; rewrite Hex in Hc'; now injection Hc' as <-).
        destruct (Club.duplicate_key (registered env req (next_id s))
                    (reclaimed req s)) eqn:Hdup.
        -- left.
           now rewrite (signup_index_conflict env req s Herr Hun Hdup) in Hin.
        -- rewrite (signup_registers env req s Herr Hun Hdup) in Hin.
           cbn [snd otps] in Hin.
           apply in_app_or in Hin as [Hin | [<- | []]]; [now left|].
           right. now exists Signup, env, req.
      * assert (Hun : forall c', existing_club req s = Some c' ->
                                 verified c' = false)
          by (intros c' Hc'; rewrite Hex in Hc'; discriminate).
        destruct (Club.duplicate_key (registered env req (next_id s))
                    (reclaimed req s)) eqn:Hdup.
        -- left.
           now rewrite (signup_index_conflict env req s Herr Hun Hdup) in Hin.
        -- rewrite (signup_registers env req s Herr Hun Hdup) in Hin.
           cbn [snd otps] in Hin.
           apply in_app_or in Hin as [Hin | [<- | []]]; [now left|].
           right. now exists Signup, env, req.
    + left. exact (Hconsume ViaVerifyOtp Hin).
    + destruct (Hreissue ResendOtp (or_introl eq_refl) Hin) as [H | ->];
        [now left|]. right. now exists ResendOtp, env, req.
    + left. now rewrite login_store in Hin.
    + destruct (Hreissue ForgotPassword (or_intror eq_refl) Hin) as [H | ->];
        [now left|]. right. now exists ForgotPassword, env, req.
    + left. exact (Hconsume ViaResetPassword Hin).
  - intros Hin. left.
    destruct (update_profile_errors req) as [|e errs] eqn:Herr.
    2:{ now rewrite update_profile_invalid in Hin
          by (rewrite Herr; discriminate). }
    destruct (resolve clubId s) as [c|] eqn:Hres.
    + now rewrite (update_profile_known clubId req s c Herr Hres) in Hin.
    + now rewrite (update_profile_unknown clubId req s Herr Hres) in Hin.
  - intros Hin. left. destruct (resolve clubId s) as [c|] eqn:Hres.
    + now rewrite (delete_account_known clubId s c Hres) in Hin.
    + now rewrite (delete_account_unknown clubId s Hres) in Hin.
Qed.

Lemma generated_code_six_digits r :
  Float64.representable r -> r < Float64.unit ->
  six_digit_code (generateOTP r).
Proof.
  intros Hrep Hlt. destruct (generateOTP_value r Hrep Hlt) as [n [Hn E]].
  destruct (six_digits_shape n Hn) as [Hlen [Hall _]].
  rewrite E. now split.
Qed.

End StoredValues.

(** X20.  No plaintext is ever stored: after any sequence of requests
    served from empty collections, the password of every account is the
    output of [bcrypt.hash]. *)
Theorem passwords_always_hashed {platform : Platform} (ops : list Operation) :
  forall c, In c (clubs (serve ops empty_store)) -> hashed c.
Proof.
  assert (H : forall s, (forall c, In c (clubs s) -> hashed c) ->
                        forall c, In c (clubs (serve ops s)) -> hashed c).
  { induction ops as [|op ops IH]; intros s Hs; [exact Hs|].
    cbn [serve]. apply IH. now apply perform_hashed. }
  apply H. intros c [].
Qed.

(** X21.  As long as every [Math.random()] was in [0, 1), every OTP record
    in the store, after any sequence of requests served from empty
    collections, carries a code of exactly six decimal digits. *)
Theorem stored_codes_six_digits {platform : Platform} (ops : list Operation) :
  Forall draw_valid ops ->
  forall rec, In rec (otps (serve ops empty_store)) ->
              six_digit_code (otp_code rec).
Proof.
  assert (H : forall s, Forall draw_valid ops ->
                (forall rec, In rec (otps s) -> six_digit_code (otp_code rec)) ->
                forall rec, In rec (otps (serve ops s)) ->
                            six_digit_code (otp_code rec)).
  { induction ops as [|op ops IH]; intros s Hvalid Hs; [exact Hs|].
    inversion Hvalid as [|? ? Hop Hops]; subst.
    cbn [serve]. apply IH; [exact Hops|].
    intros rec Hrec.
    apply perform_otps in Hrec as [Hrec | [call [env [req [-> ->]]]]];
      [now apply Hs|].
    destruct Hop as [Hrep Hlt]. cbn [issued_otp otp_code].
    now apply generated_code_six_digits. }
  intros Hvalid. apply H; [exact Hvalid|]. intros rec [].
Qed.

Lemma stored_codes_six_digits_witness :
  let P := Sample.platform in
  let ops := [Auth Signup (Sample.env 0 Sample.draw_half true) Sample.go;
              Auth Signup (Sample.env 1000 Sample.draw_zero true)
                Sample.chess] in
  let rec := issued_otp (platform := P)
               (Sample.env 0 Sample.draw_half true) Sample.go in
  Forall (draw_valid (platform := P)) ops
  /\ In rec (otps (serve (platform := P) ops empty_store))
  /\ six_digit_code (otp_code rec).
Proof.
  intros P ops rec.
  assert (H1 : Forall (draw_valid (platform := P)) ops).
  { repeat constructor; try (vm_compute; discriminate);
      vm_compute; reflexivity. }
  assert (H2 : In rec (otps (serve (platform := P) ops empty_store)))
    by (vm_compute; left; reflexivity).
  split; [exact H1|]. split; [exact H2|].
  exact (stored_codes_six_digits (platform := P) ops H1 rec H2).
Defined.

Lemma passwords_always_hashed_witness :
  let P := Sample.platform in
  let ops := [Auth Signup (Sample.env 0 Sample.draw_half true) Sample.go] in
  let c := registered (platform := P)
             (Sample.env 0 Sample.draw_half true) Sample.go 0 in
  In c (clubs (serve (platform := P) ops empty_store))
  /\ hashed (platform := P) c.
Proof.
  intros P ops c.
  assert (H1 : In c (clubs (serve (platform := P) ops empty_store)))
    by (vm_compute; left; reflexivity).
  split; [exact H1|].
  exact (passwords_always_hashed (platform := P) ops c H1).
Defined.
